(** * The ABI-driven interaction layer of [app/streamlit_app.py]

    A shallow embedding of the helper functions of the Streamlit dashboard
    ([convert_args], [decode_hexbytes], [pretty_result], [add_record],
    [load_records], [deploy_contract], [interact_with_contract]) together
    with the part of Python's run-time library they call, and the
    properties its design document states about them.

    Conventions of the embedding.
    - A Python [str] is a [string]: the sequence of its characters, a
      non-ASCII character being the bytes of its UTF-8 encoding.  The
      character classes Python consults ([isspace], [lower], decimal
      digits) are the ASCII ones.
    - A Python [int] is a [Z].  The interpreter's configurable limit on the
      number of digits [int()] and [str()] convert is not modelled.
    - An expression that may raise evaluates to a [result]: [Ok v] or
      [Raise e], [e] carrying the exception's class and its [str(e)].
    - What lives outside the repository and is not computed here (the
      checksum of an address, the arithmetic of floats, the blockchain
      client) is a field of a record the functions take as an argument. *)

From Stdlib Require Import ZArith List Lia Bool.
From Stdlib Require Import Strings.String Strings.Ascii Strings.Byte.
From Stdlib Require Import Numbers.DecimalString Numbers.DecimalZ Numbers.DecimalN.
Import ListNotations.

Local Open Scope string_scope.
Local Open Scope Z_scope.

(* ================================================================== *)
(** ** Exceptions and results *)

Inductive exn_class : Type :=
| ValueError
| TypeError
| OverflowError
| RuntimeError
| JSONDecodeError            (* json.JSONDecodeError, a ValueError *)
| LibraryError (cls : string). (* raised by web3 / the RPC node *)

(** Every exception modelled derives from Python's [Exception]; [exn_msg]
    is what [str(e)] and [f"{e}"] give. *)
Record exn : Type := Exc { exn_cls : exn_class; exn_msg : string }.

Inductive result (A : Type) : Type :=
| Ok (a : A)
| Raise (e : exn).
Arguments Ok {A} a.
Arguments Raise {A} e.

Definition bind {A B} (r : result A) (k : A -> result B) : result B :=
  match r with
  | Ok a => k a
  | Raise e => Raise e
  end.

Declare Scope py_scope.
Delimit Scope py_scope with py.
Notation "x <- r ;; k" := (bind r (fun x => k))
  (at level 61, r at next level, right associativity) : py_scope.
Local Open Scope py_scope.

(** [[f(x) for x in l]]: left to right, the first exception ends it. *)
Definition list_comp {A B} (f : A -> result B) : list A -> result (list B) :=
  fix go (l : list A) : result (list B) :=
    match l with
    | [] => Ok []
    | x :: l' => y <- f x ;; ys <- go l' ;; Ok (y :: ys)
    end.

(** [for x in l: acc = body(acc, x)], an exception leaving the loop. *)
Fixpoint for_each {A S} (body : S -> A -> result S) (l : list A) (acc : S)
  : result S :=
  match l with
  | [] => Ok acc
  | x :: l' => acc' <- body acc x ;; for_each body l' acc'
  end.

(* ================================================================== *)
(** ** Python strings *)

Definition in_range (lo hi : nat) (c : ascii) : bool :=
  let n := nat_of_ascii c in (lo <=? n)%nat && (n <=? hi)%nat.

Definition is_upper (c : ascii) : bool := in_range 65 90 c.

(** [str.isspace] on ASCII: TAB..CR, FS..US and the space. *)
Definition is_space (c : ascii) : bool := in_range 9 13 c || in_range 28 32 c.

Definition is_digit (c : ascii) : bool := in_range 48 57 c.

Definition digit_val (c : ascii) : Z := Z.of_nat (nat_of_ascii c) - 48.

Definition lower_char (c : ascii) : ascii :=
  if is_upper c then ascii_of_nat (nat_of_ascii c + 32) else c.

(** [s.lower()] *)
Fixpoint lower (s : string) : string :=
  match s with
  | "" => ""
  | String c s' => String (lower_char c) (lower s')
  end.

(** [s.startswith(p)] *)
Fixpoint startswith (s p : string) {struct p} : bool :=
  match p with
  | "" => true
  | String c p' =>
      match s with
      | "" => false
      | String d s' => Ascii.eqb d c && startswith s' p'
      end
  end.

(** [s.endswith(p)], and [s[:-n]]. *)
Definition endswith (s p : string) : bool :=
  let n := String.length s in
  let m := String.length p in
  (m <=? n)%nat && String.eqb (substring (n - m) m s) p.

Definition drop_last (n : nat) (s : string) : string :=
  substring 0 (String.length s - n) s.

Fixpoint lstrip (s : string) : string :=
  match s with
  | "" => ""
  | String c s' => if is_space c then lstrip s' else s
  end.

Fixpoint rstrip (s : string) : string :=
  match s with
  | "" => ""
  | String c s' =>
      match rstrip s' with
      | "" => if is_space c then "" else String c ""
      | r => String c r
      end
  end.

(** [s.strip()] *)
Definition strip (s : string) : string := rstrip (lstrip s).

(** [s.split(sep)] for a one-character separator: the pieces between the
    separators, empty ones kept, so never an empty list. *)
Fixpoint split (sep : ascii) (s : string) : list string :=
  match s with
  | "" => [""]
  | String c s' =>
      if Ascii.eqb c sep then "" :: split sep s'
      else match split sep s' with
           | [] => [String c ""]
           | piece :: rest => String c piece :: rest
           end
  end.

(** [sep.join(l)] *)
Fixpoint join (sep : string) (l : list string) : string :=
  match l with
  | [] => ""
  | [x] => x
  | x :: l' => x ++ sep ++ join sep l'
  end.

Definition hex_digit (n : nat) : ascii :=
  ascii_of_nat (if (n <? 10)%nat then 48 + n else 87 + n).

Definition hex2 (n : nat) : string :=
  String (hex_digit (n / 16)) (String (hex_digit (n mod 16)) "").

Fixpoint contains_char (c : ascii) (s : string) : bool :=
  match s with
  | "" => false
  | String d s' => Ascii.eqb c d || contains_char c s'
  end.

Definition repr_char (quote c : ascii) : string :=
  if Ascii.eqb c quote || Ascii.eqb c "\" then String "\" (String c "")
  else if Ascii.eqb c "009" then "\t"
  else if Ascii.eqb c "010" then "\n"
  else if Ascii.eqb c "013" then "\r"
  else if in_range 0 31 c || Ascii.eqb c "127" then "\x" ++ hex2 (nat_of_ascii c)
  else String c "".

Fixpoint repr_body (quote : ascii) (s : string) : string :=
  match s with
  | "" => ""
  | String c s' => repr_char quote c ++ repr_body quote s'
  end.

(** [repr(s)] of a str: single quotes unless the text has one and no
    double quote; the quote, the backslash and control characters escaped.
    A character beyond ASCII is taken to be printable. *)
Definition repr_str (s : string) : string :=
  let quote : ascii :=
    (if contains_char "'" s && negb (contains_char "034" s)
     then "034" else "'")%char in
  String quote (repr_body quote s ++ String quote "").

(* ================================================================== *)
(** ** Python integers and their text *)

(** [str(n)] *)
Definition str_int (n : Z) : string := NilZero.string_of_int (Z.to_int n).

(** The digits of [int(s)]: decimal digits, single underscores allowed
    between two digits only. [after_digit] tells whether the character
    before was a digit. *)
Fixpoint int_digits (after_digit : bool) (acc : Z) (s : string) : option Z :=
  match s with
  | "" => if after_digit then Some acc else None
  | String c s' =>
      if is_digit c then int_digits true (10 * acc + digit_val c) s'
      else if Ascii.eqb c "_" && after_digit then int_digits false acc s'
      else None
  end.

(** The value [int(s)] reads: blanks around, one optional sign, digits. *)
Definition int_literal (s : string) : option Z :=
  let t := strip s in
  match t with
  | "" => None
  | String c d =>
      if Ascii.eqb c "+" then int_digits false 0 d
      else if Ascii.eqb c "-" then option_map Z.opp (int_digits false 0 d)
      else int_digits false 0 t
  end.

Fixpoint all_digits (s : string) : bool :=
  match s with
  | "" => true
  | String c s' => is_digit c && all_digits s'
  end.

(** The decimal numeral of a natural number: digits only, at least one,
    no zero in front of another digit. *)
Definition nat_literal (s : string) : bool :=
  match s with
  | "" => false
  | String c r => all_digits s && (negb (Ascii.eqb c "0") || String.eqb r "")
  end.

Definition invalid_literal (s : string) : exn :=
  Exc ValueError ("invalid literal for int() with base 10: " ++ repr_str s).

(** [int(s)] for a str [s] *)
Definition int_of_str (s : string) : result Z :=
  match int_literal s with
  | Some z => Ok z
  | None => Raise (invalid_literal s)
  end.

(* ================================================================== *)
(** ** [json.loads]

    The values [json.loads] returns, and the decoder of CPython's [json]
    package (its scanner, [JSONArray], [JSONObject] and [scanstring], with
    the defaults [strict=True] and no hooks). A float is kept as the
    numeral that denotes it. *)

#[warnings="-register-all"]
Inductive json : Type :=
| JNull
| JBool (b : bool)
| JInt (z : Z)
| JFloat (numeral : string)
| JStr (s : string)
| JArr (items : list json)
| JObj (members : list (string * json)).

(** What a scanning step ends in. A position is kept as the number of
    characters that were still to be read there. *)
Inductive scan (A : Type) : Type :=
| Scanned (a : A) (rest : string)
| Stop (left : nat)                 (* StopIteration(idx) *)
| Fail (what : string) (left : nat) (* JSONDecodeError(what, doc, idx) *)
| Exhausted.                        (* the fuel of the model ran out *)
Arguments Scanned {A} a rest.
Arguments Stop {A} left.
Arguments Fail {A} what left.
Arguments Exhausted {A}.

Definition scan_map {A B} (f : A -> B) (r : scan A) : scan B :=
  match r with
  | Scanned a rest => Scanned (f a) rest
  | Stop n => Stop n
  | Fail w n => Fail w n
  | Exhausted => Exhausted
  end.

(** The decoder's whitespace: [ \t\n\r]. *)
Definition json_ws (c : ascii) : bool :=
  Ascii.eqb c " " || Ascii.eqb c "009" || Ascii.eqb c "010" || Ascii.eqb c "013".

Fixpoint skip_ws (s : string) : string :=
  match s with
  | "" => ""
  | String c s' => if json_ws c then skip_ws s' else s
  end.

Fixpoint drop (n : nat) (s : string) : string :=
  match n, s with
  | S n', String _ s' => drop n' s'
  | _, _ => s
  end.

(** The longest run of decimal digits at the head of [s], and what follows. *)
Fixpoint span_digits (s : string) : string * string :=
  match s with
  | "" => ("", "")
  | String c s' =>
      if is_digit c
      then let (ds, rest) := span_digits s' in (String c ds, rest)
      else ("", s)
  end.

Fixpoint digits_value (acc : Z) (ds : string) : Z :=
  match ds with
  | "" => acc
  | String c ds' => digits_value (10 * acc + digit_val c) ds'
  end.

(** The optional fraction: a dot and at least one digit. *)
Definition match_frac (s : string) : string * string :=
  match s with
  | String "." s' =>
      match span_digits s' with
      | ("", _) => ("", s)
      | (ds, rest) => (String "." ds, rest)
      end
  | _ => ("", s)
  end.

(** The optional exponent: e or E, an optional sign, at least one digit. *)
Definition match_exp (s : string) : string * string :=
  match s with
  | String e s' =>
      if Ascii.eqb e "e" || Ascii.eqb e "E" then
        let (sign, s'') :=
          match s' with
          | String g t =>
              if Ascii.eqb g "-" || Ascii.eqb g "+" then (String g "", t) else ("", s')
          | "" => ("", s')
          end in
        match span_digits s'' with
        | ("", _) => ("", s)
        | (ds, rest) => (String e (sign ++ ds), rest)
        end
      else ("", s)
  | "" => ("", s)
  end.

(** What follows the integer part [ds] of a number: an int when there is
    neither a fraction nor an exponent, a float otherwise. *)
Definition number_tail (neg : bool) (ds rest : string) : json * string :=
  let (frac, rest1) := match_frac rest in
  let (exp, rest2) := match_exp rest1 in
  match frac, exp with
  | "", "" =>
      let v := digits_value 0 ds in
      (JInt (if neg then - v else v), rest)
  | _, _ => (JFloat ((if neg then "-" else "") ++ ds ++ frac ++ exp), rest2)
  end.

(** The integer part: a zero, or a digit run that does not start with
    zero. *)
Definition match_unsigned (neg : bool) (s : string) : option (json * string) :=
  match s with
  | "" => None
  | String c s' =>
      if is_digit c then
        if Ascii.eqb c "0" then Some (number_tail neg "0" s')
        else let (ds, rest) := span_digits s' in
             Some (number_tail neg (String c ds) rest)
      else None
  end.

(** [NUMBER_RE.match]: an optional minus sign, the integer part, then the
    optional fraction and the optional exponent. *)
Definition match_number (s : string) : option (json * string) :=
  match s with
  | "" => None
  | String c s' =>
      if Ascii.eqb c "-" then match_unsigned true s' else match_unsigned false s
  end.

Definition hex_val (c : ascii) : option N :=
  let n := N_of_ascii c in
  if in_range 48 57 c then Some (n - 48)%N
  else if in_range 97 102 c then Some (n - 87)%N
  else if in_range 65 70 c then Some (n - 55)%N
  else None.

Definition hex4 (a b c d : ascii) : option N :=
  match hex_val a, hex_val b, hex_val c, hex_val d with
  | Some x, Some y, Some z, Some w => Some (((x * 16 + y) * 16 + z) * 16 + w)%N
  | _, _, _, _ => None
  end.

Definition chr_byte (n : N) : ascii := ascii_of_N n.

(** [chr(u)] as text: the UTF-8 bytes of the code point (a lone surrogate
    gets the three bytes of the same scheme). *)
Definition chr (u : N) : string :=
  if (u <? 128)%N then String (chr_byte u) ""
  else if (u <? 2048)%N then
    String (chr_byte (192 + u / 64)) (String (chr_byte (128 + u mod 64)) "")
  else if (u <? 65536)%N then
    String (chr_byte (224 + u / 4096))
      (String (chr_byte (128 + (u / 64) mod 64))
         (String (chr_byte (128 + u mod 64)) ""))
  else
    String (chr_byte (240 + u / 262144))
      (String (chr_byte (128 + (u / 4096) mod 64))
         (String (chr_byte (128 + (u / 64) mod 64))
            (String (chr_byte (128 + u mod 64)) ""))).

(** The one-character escapes of [BACKSLASH]. *)
Definition backslash (c : ascii) : option ascii :=
  if Ascii.eqb c "034" then Some "034"%char
  else if Ascii.eqb c "\" then Some "\"%char
  else if Ascii.eqb c "/" then Some "/"%char
  else if Ascii.eqb c "b" then Some "008"%char
  else if Ascii.eqb c "f" then Some "012"%char
  else if Ascii.eqb c "n" then Some "010"%char
  else if Ascii.eqb c "r" then Some "013"%char
  else if Ascii.eqb c "t" then Some "009"%char
  else None.

Definition scan_prepend (p : string) (r : scan string) : scan string :=
  scan_map (fun s => p ++ s) r.

Definition is_high_surrogate (u : N) : bool := (55296 <=? u)%N && (u <=? 56319)%N.
Definition is_low_surrogate (u : N) : bool := (56320 <=? u)%N && (u <=? 57343)%N.
Definition join_surrogates (hi lo : N) : N :=
  (65536 + (hi - 55296) * 1024 + (lo - 56320))%N.

(** [scanstring(doc, end)] from just after the opening quote, which stood
    where [begin] characters were left. *)
Fixpoint scanstring (begin : nat) (s : string) : scan string :=
  match s with
  | "" => Fail "Unterminated string starting at" begin
  | String c r =>
      if Ascii.eqb c "034" then Scanned "" r
      else if Ascii.eqb c "\" then
        match r with
        | "" => Fail "Unterminated string starting at" begin
        | String e r1 =>
            if Ascii.eqb e "u" then
              match r1 with
              | String h1 (String h2 (String h3 (String h4 r5))) =>
                  match hex4 h1 h2 h3 h4 with
                  | None => Fail "Invalid \uXXXX escape" (String.length r)
                  | Some u =>
                      match r5 with
                      | String b (String v (String g1 (String g2
                          (String g3 (String g4 r11))))) =>
                          if is_high_surrogate u && Ascii.eqb b "\" && Ascii.eqb v "u"
                             && negb (String.eqb r11 "")
                          then
                            match hex4 g1 g2 g3 g4 with
                            | None =>
                                Fail "Invalid \uXXXX escape" (String.length r5 - 1)
                            | Some u2 =>
                                if is_low_surrogate u2
                                then scan_prepend (chr (join_surrogates u u2))
                                       (scanstring begin r11)
                                else scan_prepend (chr u) (scanstring begin r5)
                            end
                          else scan_prepend (chr u) (scanstring begin r5)
                      | _ => scan_prepend (chr u) (scanstring begin r5)
                      end
                  end
              | _ => Fail "Invalid \uXXXX escape" (String.length r)
              end
            else
              match backslash e with
              | Some ch => scan_prepend (String ch "") (scanstring begin r1)
              | None =>
                  Fail ("Invalid \escape: " ++ repr_str (String e "")) (String.length r)
              end
        end
      else if in_range 0 31 c then Fail "Invalid control character at" (String.length s)
      else scan_prepend (String c "") (scanstring begin r)
  end.

(** [dict(pairs)] for str keys: a key met again keeps its place and takes
    the new value. *)
Fixpoint obj_set (k : string) (v : json) (d : list (string * json))
  : list (string * json) :=
  match d with
  | [] => [(k, v)]
  | (k', v') :: d' =>
      if String.eqb k' k then (k', v) :: d' else (k', v') :: obj_set k v d'
  end.

Definition obj_of_pairs (pairs : list (string * json)) : list (string * json) :=
  fold_left (fun d kv => obj_set (fst kv) (snd kv) d) pairs [].

Definition head_is (c : ascii) (s : string) : bool :=
  match s with
  | String d _ => Ascii.eqb c d
  | "" => false
  end.

(** [scan_once], [JSONArray] and [JSONObject]. [fuel] bounds the number of
    nested calls; [json_loads] gives enough of it. *)
Fixpoint scan_once (fuel : nat) (s : string) {struct fuel} : scan json :=
  match fuel with
  | O => Exhausted
  | S fuel' =>
      match s with
      | "" => Stop 0
      | String c r =>
          if Ascii.eqb c "034" then scan_map JStr (scanstring (String.length s) r)
          else if Ascii.eqb c "{" then
            (* JSONObject *)
            let r1 := skip_ws r in
            if head_is "}" r1 then Scanned (JObj []) (drop 1 r1)
            else if head_is "034" r1 then object_members fuel' [] (drop 1 r1)
            else Fail "Expecting property name enclosed in double quotes"
                   (String.length r1)
          else if Ascii.eqb c "[" then
            (* JSONArray *)
            let r1 := skip_ws r in
            if head_is "]" r1 then Scanned (JArr []) (drop 1 r1)
            else array_items fuel' [] r1
          else if startswith s "null" then Scanned JNull (drop 4 s)
          else if startswith s "true" then Scanned (JBool true) (drop 4 s)
          else if startswith s "false" then Scanned (JBool false) (drop 5 s)
          else
            match match_number s with
            | Some (v, rest) => Scanned v rest
            | None =>
                if startswith s "NaN" then Scanned (JFloat "NaN") (drop 3 s)
                else if startswith s "Infinity"
                then Scanned (JFloat "Infinity") (drop 8 s)
                else if startswith s "-Infinity"
                then Scanned (JFloat "-Infinity") (drop 9 s)
                else Stop (String.length s)
            end
      end
  end

(** The loop of [JSONArray]: [s] is where the next value starts, [acc] the
    values read so far, last first. *)
with array_items (fuel : nat) (acc : list json) (s : string) {struct fuel}
  : scan json :=
  match fuel with
  | O => Exhausted
  | S fuel' =>
      match scan_once fuel' s with
      | Scanned v rest =>
          let rest1 := skip_ws rest in
          if head_is "]" rest1 then Scanned (JArr (rev (v :: acc))) (drop 1 rest1)
          else if head_is "," rest1
          then array_items fuel' (v :: acc) (skip_ws (drop 1 rest1))
          else Fail "Expecting ',' delimiter" (String.length rest1)
      | Stop n => Fail "Expecting value" n
      | Fail w n => Fail w n
      | Exhausted => Exhausted
      end
  end

(** The loop of [JSONObject]: [s] is just after the quote that opens the
    next key, [acc] the pairs read so far, last first. *)
with object_members (fuel : nat) (acc : list (string * json)) (s : string)
  {struct fuel} : scan json :=
  match fuel with
  | O => Exhausted
  | S fuel' =>
      match scanstring (S (String.length s)) s with
      | Scanned key rest =>
          let rest1 := skip_ws rest in
          if head_is ":" rest1 then
            match scan_once fuel' (skip_ws (drop 1 rest1)) with
            | Scanned v rest2 =>
                let rest3 := skip_ws rest2 in
                if head_is "}" rest3
                then Scanned (JObj (obj_of_pairs (rev ((key, v) :: acc))))
                       (drop 1 rest3)
                else if head_is "," rest3 then
                  let rest4 := skip_ws (drop 1 rest3) in
                  if head_is "034" rest4
                  then object_members fuel' ((key, v) :: acc) (drop 1 rest4)
                  else Fail "Expecting property name enclosed in double quotes"
                         (String.length rest4)
                else Fail "Expecting ',' delimiter" (String.length rest3)
            | Stop n => Fail "Expecting value" n
            | Fail w n => Fail w n
            | Exhausted => Exhausted
            end
          else Fail "Expecting ':' delimiter" (String.length rest1)
      | Stop n => Stop n
      | Fail w n => Fail w n
      | Exhausted => Exhausted
      end
  end.

Fixpoint count_char (c : ascii) (s : string) : nat :=
  match s with
  | "" => 0
  | String d s' => (if Ascii.eqb c d then 1 else 0) + count_char c s'
  end.

(** Characters after the last newline of [s] ([s] itself when it has none). *)
Fixpoint last_line (s : string) : string :=
  match s with
  | "" => ""
  | String c s' =>
      if contains_char "010" s' then last_line s'
      else if Ascii.eqb c "010" then s' else s
  end.

Definition str_nat (n : nat) : string := str_int (Z.of_nat n).

(** [JSONDecodeError(what, doc, pos)]: its text names line and column. *)
Definition json_error (what doc : string) (pos : nat) : exn :=
  let before := substring 0 pos doc in
  let lineno := (count_char "010" before + 1)%nat in
  let colno := (String.length (last_line before) + 1)%nat in
  Exc JSONDecodeError
    (what ++ ": line " ++ str_nat lineno ++ " column " ++ str_nat colno
       ++ " (char " ++ str_nat pos ++ ")").

Definition loads_fuel (doc : string) : nat := (2 * String.length doc + 2)%nat.

(** [json.loads(doc)] for a str [doc]. *)
Definition json_loads (doc : string) : result json :=
  let n := String.length doc in
  if startswith doc (chr 65279)
  then Raise (json_error "Unexpected UTF-8 BOM (decode using utf-8-sig)" doc 0)
  else
    match scan_once (loads_fuel doc) (skip_ws doc) with
    | Scanned v rest =>
        let rest1 := skip_ws rest in
        match rest1 with
        | "" => Ok v
        | _ => Raise (json_error "Extra data" doc (n - String.length rest1))
        end
    | Stop k => Raise (json_error "Expecting value" doc (n - k))
    | Fail what k => Raise (json_error what doc (n - k))
    | Exhausted => Raise (Exc RuntimeError "decoder out of fuel")
    end.

(* ================================================================== *)
(** ** Outside the repository *)

(** What the embedding does not compute: [Web3.to_checksum_address]
    (eth_utils: validation and the Keccak-based casing), and the two
    places where the value of a float matters, [int(x)] and [repr(x)] of
    the float a JSON numeral denotes. *)
Record extern : Type := {
  to_checksum_address : json -> result string;
  float_to_int : string -> result Z;
  float_repr : string -> string
}.

(* ================================================================== *)
(** ** [int(x)] and [str(x)] of decoded JSON *)

Definition type_name (x : json) : string :=
  match x with
  | JNull => "NoneType"
  | JBool _ => "bool"
  | JInt _ => "int"
  | JFloat _ => "float"
  | JStr _ => "str"
  | JArr _ => "list"
  | JObj _ => "dict"
  end.

Definition int_type_error (x : json) : exn :=
  Exc TypeError
    ("int() argument must be a string, a bytes-like object or a real number, not '"
       ++ type_name x ++ "'").

(** [int(x)] *)
Definition py_int (ext : extern) (x : json) : result Z :=
  match x with
  | JInt z => Ok z
  | JBool b => Ok (if b then 1 else 0)
  | JStr s => int_of_str s
  | JFloat f => float_to_int ext f
  | _ => Raise (int_type_error x)
  end.

(** [repr(x)] *)
Fixpoint json_repr (ext : extern) (x : json) : string :=
  match x with
  | JNull => "None"
  | JBool b => if b then "True" else "False"
  | JInt z => str_int z
  | JFloat f => float_repr ext f
  | JStr s => repr_str s
  | JArr l => "[" ++ join ", " (map (json_repr ext) l) ++ "]"
  | JObj d =>
      "{" ++ join ", "
               (map (fun kv : string * json =>
                       let (k, v) := kv in repr_str k ++ ": " ++ json_repr ext v) d)
          ++ "}"
  end.

(** [str(x)] *)
Definition py_str (ext : extern) (x : json) : string :=
  match x with
  | JStr s => s
  | _ => json_repr ext x
  end.

Fixpoint chars (s : string) : list string :=
  match s with
  | "" => []
  | String c s' => String c "" :: chars s'
  end.

(** The items [for x in v] visits. *)
Definition py_iter (v : json) : result (list json) :=
  match v with
  | JArr l => Ok l
  | JStr s => Ok (map JStr (chars s))
  | JObj d => Ok (map (fun kv => JStr (fst kv)) d)
  | _ => Raise (Exc TypeError ("'" ++ type_name v ++ "' object is not iterable"))
  end.

(* ================================================================== *)
(** ** Python values of the call layer *)

(** A hashable value, as a dict key holds it. *)
#[warnings="-register-all"]
Inductive pykey : Type :=
| KNone
| KBool (b : bool)
| KInt (z : Z)
| KStr (s : string)
| KBytes (bs : list byte)
| KHexBytes (bs : list byte)
| KTuple (items : list pykey).

(** Arguments and results of contract calls: scalars, [bytes] and its
    subclass [HexBytes], lists, tuples and dicts (in insertion order). The
    ABI has no floats. *)
#[warnings="-register-all"]
Inductive pyval : Type :=
| PNone
| PBool (b : bool)
| PInt (z : Z)
| PStr (s : string)
| PBytes (bs : list byte)
| PHexBytes (bs : list byte)
| PList (items : list pyval)
| PTuple (items : list pyval)
| PDict (items : list (pykey * pyval)).

(* ================================================================== *)
(** ** Type coercion: [convert_args] *)

(** An entry of a function's ABI ["inputs"]: the dict [{"name", "type"}]. *)
Record abi_input : Type := { name : string; type : string }.

Definition unsupported_array (t : string) : exn :=
  Exc ValueError ("暂不支持的数组类型: " ++ t).

Definition is_int_type (t : string) : bool :=
  startswith t "uint" || startswith t "int".

Definition truthy_words : list string := ["1"; "true"; "yes"; "y"; "t"].

(** [x in words] *)
Definition str_in (x : string) (words : list string) : bool :=
  existsb (String.eqb x) words.

(** [[x.strip() for x in raw.split(",") if x.strip() != ""]] *)
Definition comma_tokens (raw : string) : list string :=
  map strip (filter (fun x => negb (String.eqb (strip x) "")) (split "," raw)).

(** The value of [arr]: the JSON array when the text opens with a
    bracket, the comma-separated tokens otherwise. *)
Definition parse_array (raw : string) : result (list json) :=
  if startswith (strip raw) "["
  then v <- json_loads raw ;; py_iter v
  else Ok (map JStr (comma_tokens raw)).

(** One turn of the loop of [convert_args]: the value it appends. *)
Definition convert_arg (ext : extern) (spec : abi_input) (raw : string)
  : result pyval :=
  let t := type spec in
  if is_int_type t then
    n <- int_of_str raw ;; Ok (PInt n)
  else if String.eqb t "address" then
    a <- to_checksum_address ext (JStr raw) ;; Ok (PStr a)
  else if String.eqb t "bool" then
    Ok (PBool (str_in (lower raw) truthy_words))
  else if String.eqb t "string" then
    Ok (PStr raw)
  else if endswith t "[]" then
    let base := drop_last 2 t in
    arr <- parse_array raw ;;
    if is_int_type base then
      l <- list_comp (py_int ext) arr ;; Ok (PList (map PInt l))
    else if String.eqb base "address" then
      l <- list_comp (to_checksum_address ext) arr ;; Ok (PList (map PStr l))
    else if String.eqb base "string" then
      Ok (PList (map (fun x => PStr (py_str ext x)) arr))
    else Raise (unsupported_array t)
  else Ok (PStr raw).

(** [convert_args(inputs_abi, args_raw)] *)
Definition convert_args (ext : extern) (inputs_abi : list abi_input)
  (args_raw : list string) : result (list pyval) :=
  for_each
    (fun (converted : list pyval) (p : abi_input * string) =>
       let (spec, raw) := p in
       v <- convert_arg ext spec raw ;; Ok (converted ++ [v])%list)
    (combine inputs_abi args_raw) [].

(* ================================================================== *)
(** ** Dicts *)

Definition key_num (k : pykey) : option Z :=
  match k with
  | KBool b => Some (if b then 1 else 0)
  | KInt z => Some z
  | _ => None
  end.

Definition bytes_eqb (x y : list byte) : bool :=
  if list_eq_dec Byte.byte_eq_dec x y then true else false.

Definition key_bytes (k : pykey) : option (list byte) :=
  match k with
  | KBytes bs => Some bs
  | KHexBytes bs => Some bs
  | _ => None
  end.

(** [a == b] between hashable values: [True == 1], a [HexBytes] equals
    the [bytes] of the same content, tuples are compared item by item. *)
Fixpoint key_eqb (a b : pykey) : bool :=
  match a, b with
  | KNone, KNone => true
  | KStr s, KStr t => String.eqb s t
  | (KBytes x | KHexBytes x), (KBytes y | KHexBytes y) => bytes_eqb x y
  | KTuple l, KTuple m =>
      (fix all2 (l m : list pykey) : bool :=
         match l, m with
         | [], [] => true
         | x :: l', y :: m' => key_eqb x y && all2 l' m'
         | _, _ => false
         end) l m
  | _, _ =>
      match key_num a, key_num b with
      | Some x, Some y => Z.eqb x y
      | _, _ => false
      end
  end.

(** [d[k] = v]: a key already there keeps its place (and the key object
    first inserted) and takes the new value; a new key goes last. *)
Fixpoint dict_setitem (k : pykey) (v : pyval) (d : list (pykey * pyval))
  : list (pykey * pyval) :=
  match d with
  | [] => [(k, v)]
  | (k', v') :: d' =>
      if key_eqb k' k then (k', v) :: d' else (k', v') :: dict_setitem k v d'
  end.

(** The dict comprehension [{k: f(v) for k, v in d.items()}], building
    on the entries [acc] already set. *)
Definition dict_comp (f : pyval -> pyval) (d acc : list (pykey * pyval))
  : list (pykey * pyval) :=
  fold_left (fun acc (kv : pykey * pyval) =>
               let (k, v) := kv in dict_setitem k (f v) acc) d acc.

(** [hash(x)] succeeds: lists and dicts are unhashable, a tuple is hashable
    when its items are. The key is the value itself. *)
Fixpoint hash_key (x : pyval) : result pykey :=
  match x with
  | PNone => Ok KNone
  | PBool b => Ok (KBool b)
  | PInt z => Ok (KInt z)
  | PStr s => Ok (KStr s)
  | PBytes bs => Ok (KBytes bs)
  | PHexBytes bs => Ok (KHexBytes bs)
  | PTuple l => ks <- list_comp hash_key l ;; Ok (KTuple ks)
  | PList _ => Raise (Exc TypeError "unhashable type: 'list'")
  | PDict _ => Raise (Exc TypeError "unhashable type: 'dict'")
  end.

(** [dict(pairs)] *)
Definition py_dict (pairs : list (pyval * pyval)) : result pyval :=
  d <- for_each
         (fun (d : list (pykey * pyval)) (kv : pyval * pyval) =>
            k <- hash_key (fst kv) ;; Ok (dict_setitem k (snd kv) d))
         pairs [] ;;
  Ok (PDict d).

(* ================================================================== *)
(** ** Result normalisation: [decode_hexbytes] and [pretty_result] *)

Definition byte_hex (b : byte) : string := hex2 (Byte.to_nat b).

Fixpoint bytes_hex (bs : list byte) : string :=
  match bs with
  | [] => ""
  | b :: bs' => byte_hex b ++ bytes_hex bs'
  end.

(** [HexBytes.hex()]: the bytes in lowercase hexadecimal after "0x"
    (hexbytes before 1.0, the one web3 v6 installs). *)
Definition hexbytes_hex (bs : list byte) : string := "0x" ++ bytes_hex bs.

(** [decode_hexbytes(obj)] *)
Fixpoint decode_hexbytes (obj : pyval) : pyval :=
  match obj with
  | PHexBytes bs => PStr (hexbytes_hex bs)
  | PList l => PList (map decode_hexbytes l)
  | PTuple l => PList (map decode_hexbytes l)
  | PDict d => PDict (dict_comp decode_hexbytes d [])
  | _ => obj
  end.

Definition quote : string := String "034" "".

(** [bytes.__repr__], which is what [str()] gives of a [bytes] and of a
    [HexBytes] alike. *)
Definition bytes_repr_char (q c : ascii) : string :=
  if Ascii.eqb c q || Ascii.eqb c "\" then String "\" (String c "")
  else if Ascii.eqb c "009" then "\t"
  else if Ascii.eqb c "010" then "\n"
  else if Ascii.eqb c "013" then "\r"
  else if in_range 0 31 c || in_range 127 255 c then "\x" ++ hex2 (nat_of_ascii c)
  else String c "".

Definition bytes_repr (bs : list byte) : string :=
  let s := string_of_list_byte bs in
  let q : ascii :=
    (if contains_char "'" s && negb (contains_char "034" s)
     then "034" else "'")%char in
  "b" ++ String q
    ((fix body (s : string) : string :=
        match s with
        | "" => ""
        | String c s' => bytes_repr_char q c ++ body s'
        end) s ++ String q "").

Definition hexbytes_repr (bs : list byte) : string :=
  "HexBytes(" ++ repr_str (hexbytes_hex bs) ++ ")".

Definition tuple_text (items : list string) : string :=
  match items with
  | [x] => "(" ++ x ++ ",)"
  | _ => "(" ++ join ", " items ++ ")"
  end.

Fixpoint key_repr (k : pykey) : string :=
  match k with
  | KNone => "None"
  | KBool b => if b then "True" else "False"
  | KInt z => str_int z
  | KStr s => repr_str s
  | KBytes bs => bytes_repr bs
  | KHexBytes bs => hexbytes_repr bs
  | KTuple l => tuple_text (map key_repr l)
  end.

(** [repr(x)] *)
Fixpoint val_repr (x : pyval) : string :=
  match x with
  | PNone => "None"
  | PBool b => if b then "True" else "False"
  | PInt z => str_int z
  | PStr s => repr_str s
  | PBytes bs => bytes_repr bs
  | PHexBytes bs => hexbytes_repr bs
  | PList l => "[" ++ join ", " (map val_repr l) ++ "]"
  | PTuple l => tuple_text (map val_repr l)
  | PDict d =>
      "{" ++ join ", "
               (map (fun kv : pykey * pyval =>
                       let (k, v) := kv in key_repr k ++ ": " ++ val_repr v) d)
          ++ "}"
  end.

(** [str(x)] *)
Definition val_str (x : pyval) : string :=
  match x with
  | PStr s => s
  | PHexBytes bs => bytes_repr bs
  | _ => val_repr x
  end.

(** [json.dumps(obj, indent=2, ensure_ascii=False, default=str)]. *)
Definition escape_char (c : ascii) : string :=
  if Ascii.eqb c "034" then String "\" quote
  else if Ascii.eqb c "\" then "\\"
  else if Ascii.eqb c "010" then "\n"
  else if Ascii.eqb c "013" then "\r"
  else if Ascii.eqb c "009" then "\t"
  else if Ascii.eqb c "008" then "\b"
  else if Ascii.eqb c "012" then "\f"
  else if in_range 0 31 c then "\u00" ++ hex2 (nat_of_ascii c)
  else String c "".

Fixpoint escape (s : string) : string :=
  match s with
  | "" => ""
  | String c s' => escape_char c ++ escape s'
  end.

Definition encode_str (s : string) : string := quote ++ escape s ++ quote.

Fixpoint spaces (n : nat) : string :=
  match n with
  | O => ""
  | S n' => String " " (spaces n')
  end.

(** A new line indented for nesting depth [level]. *)
Definition newline_indent (level : nat) : string :=
  String "010" (spaces (2 * level)).

Definition key_type_name (k : pykey) : string :=
  match k with
  | KBytes _ => "bytes"
  | KHexBytes _ => "HexBytes"
  | KTuple _ => "tuple"
  | KNone => "NoneType"
  | KBool _ => "bool"
  | KInt _ => "int"
  | KStr _ => "str"
  end.

(** The text a dict key is written as; other keys are refused. *)
Definition encode_key (k : pykey) : result string :=
  match k with
  | KStr s => Ok s
  | KBool b => Ok (if b then "true" else "false")
  | KNone => Ok "null"
  | KInt z => Ok (str_int z)
  | _ =>
      Raise (Exc TypeError
               ("keys must be str, int, float, bool or None, not "
                  ++ key_type_name k))
  end.

Definition bracketed (open close : string) (level : nat) (items : list string)
  : string :=
  open ++ newline_indent (S level)
    ++ join ("," ++ newline_indent (S level)) items
    ++ newline_indent level ++ close.

Fixpoint iterencode (level : nat) (o : pyval) : result string :=
  match o with
  | PNone => Ok "null"
  | PBool b => Ok (if b then "true" else "false")
  | PInt z => Ok (str_int z)
  | PStr s => Ok (encode_str s)
  | PBytes _ => Ok (encode_str (val_str o))             (* default=str *)
  | PHexBytes _ => Ok (encode_str (val_str o))          (* default=str *)
  | PList [] => Ok "[]"
  | PTuple [] => Ok "[]"
  | PList l =>
      items <- list_comp (iterencode (S level)) l ;;
      Ok (bracketed "[" "]" level items)
  | PTuple l =>
      items <- list_comp (iterencode (S level)) l ;;
      Ok (bracketed "[" "]" level items)
  | PDict [] => Ok "{}"
  | PDict d =>
      items <- list_comp
                 (fun kv : pykey * pyval =>
                    let (k, v) := kv in
                    ks <- encode_key k ;;
                    vs <- iterencode (S level) v ;;
                    Ok (encode_str ks ++ ": " ++ vs))
                 d ;;
      Ok (bracketed "{" "}" level items)
  end.

Definition json_dumps (o : pyval) : result string := iterencode 0 o.

(** [pretty_result(res)]: [except Exception] catches whatever the [try]
    block raises. *)
Definition pretty_result (res : pyval) : string :=
  let attempt :=
    match res with
    | PList l => json_dumps (PList (map decode_hexbytes l))
    | PTuple l => json_dumps (PList (map decode_hexbytes l))
    | _ => json_dumps (decode_hexbytes res)
    end in
  match attempt with
  | Ok text => text
  | Raise _ => val_str res
  end.

(* ================================================================== *)
(** ** Deployment records: [add_record] and [load_records] *)

(** An entry of [deployments.json]. *)
Record deployment : Type := {
  time : Z;
  network : string;
  contract_type : string;
  address : string;
  tx_hash : string;
  constructor_args : pyval
}.

(** What the functions read and change besides their arguments: the
    content of [DEPLOYMENTS_FILE] ([None] when the file does not exist)
    and the clock [time.time()] reads, in whole seconds. *)
Record state : Type := {
  DEPLOYMENTS_FILE : option (list deployment);
  clock : Z
}.

(** A computation that reads and writes the [state] and may raise; what
    it wrote before raising stays written. *)
Definition action (A : Type) : Type := state -> result A * state.

Definition ret {A} (a : A) : action A := fun st => (Ok a, st).

Definition raise {A} (e : exn) : action A := fun st => (Raise e, st).

Definition lift {A} (r : result A) : action A := fun st => (r, st).

Definition and_then {A B} (m : action A) (k : A -> action B) : action B :=
  fun st =>
    match m st with
    | (Ok a, st') => k a st'
    | (Raise e, st') => (Raise e, st')
    end.

(** [try: m  except Exception as e: handler(e)] *)
Definition try_except {A} (m : action A) (handler : exn -> action A) : action A :=
  fun st =>
    match m st with
    | (Ok a, st') => (Ok a, st')
    | (Raise e, st') => handler e st'
    end.

Notation "x <~ m ;; k" := (and_then m (fun x => k))
  (at level 61, m at next level, right associativity) : py_scope.

(** [read_json(DEPLOYMENTS_FILE)] and [write_json(DEPLOYMENTS_FILE, data)] *)
Definition read_json : action (option (list deployment)) :=
  fun st => (Ok (DEPLOYMENTS_FILE st), st).

Definition write_json (data : list deployment) : action unit :=
  fun st => (Ok tt, {| DEPLOYMENTS_FILE := Some data; clock := clock st |}).

(** [x or []] *)
Definition or_empty {A} (x : option (list A)) : list A :=
  match x with
  | Some (a :: l) => a :: l
  | _ => []
  end.

(** [add_record(network, ctype, address, tx_hash, constructor_args)];
    [address] is [None] or a str. *)
Definition add_record (ext : extern) (network ctype : string)
  (address : option string) (tx_hash : string) (constructor_args : pyval)
  : action unit :=
  found <~ read_json ;;
  let records := or_empty found in
  now <~ (fun st => (Ok (clock st), st)) ;;
  checksummed <~ lift (to_checksum_address ext
                         (match address with Some a => JStr a | None => JNull end)) ;;
  write_json
    (records ++ [ {| time := now;
                     network := network;
                     contract_type := ctype;
                     address := checksummed;
                     tx_hash := tx_hash;
                     constructor_args := constructor_args |} ])%list.

(** [load_records(network_filter)]; a filter that is [None] or empty is
    no filter. *)
Definition load_records (network_filter : option string) : action (list deployment) :=
  found <~ read_json ;;
  let records := or_empty found in
  match network_filter with
  | Some (String c f) =>
      ret (filter
             (fun r => startswith (lower (network r)) (lower (String c f)))
             records)
  | _ => ret records
  end.

(* ================================================================== *)
(** ** The write pipeline: [deploy_contract] and [interact_with_contract] *)

(** A transaction under construction: a dict with str keys. *)
Definition transaction : Type := list (string * pyval).

Fixpoint tx_set (k : string) (v : pyval) (tx : transaction) : transaction :=
  match tx with
  | [] => [(k, v)]
  | (k', v') :: tx' =>
      if String.eqb k' k then (k', v) :: tx' else (k', v') :: tx_set k v tx'
  end.

Record receipt : Type := {
  transactionHash : list byte;
  blockNumber : Z;
  gasUsed : Z;
  contractAddress : option string
}.

(** The constructor or a function of the contract applied to its
    arguments: what can be done with the bound call. *)
Record bound_call : Type := {
  build_transaction : transaction -> result transaction;
  call : result pyval
}.

(** The contract handle web3 gives. *)
Record contract : Type := {
  constructor_abi : list abi_input;     (* contract.constructor_abi["inputs"] *)
  constructor : list pyval -> result bound_call;
  functions : string -> result (list pyval -> result bound_call)
}.

(** [provider.w3.eth] and [provider.account.address]. *)
Record provider : Type := {
  account_address : string;
  get_transaction_count : string -> result Z;
  estimate_gas : transaction -> result Z;
  gas_price : result Z;
  send_transaction : transaction -> result (list byte);
  wait_for_transaction_receipt : list byte -> result receipt
}.

(** An entry of the ABI as the dict it is. *)
Definition abi_input_dict (i : abi_input) : pyval :=
  PDict [(KStr "name", PStr (name i)); (KStr "type", PStr (type i))].

Definition deploy_failed (e : exn) : exn :=
  Exc RuntimeError ("部署失败：" ++ exn_msg e).

Definition interaction_failed (e : exn) : exn :=
  Exc RuntimeError ("交互失败：" ++ exn_msg e).

(** [deploy_contract(provider, contract, constructor_args, chain_name,
    contract_type)] *)
Definition deploy_contract (ext : extern) (p : provider) (c : contract)
  (constructor_args : list pyval) (chain_name contract_type : string)
  : action receipt :=
  try_except
    (bound <~ lift (constructor c constructor_args) ;;
     nonce <~ lift (get_transaction_count p (account_address p)) ;;
     tx <~ lift (build_transaction bound
                   [("from", PStr (account_address p)); ("nonce", PInt nonce)]) ;;
     gas <~ lift (estimate_gas p tx) ;;
     let tx := tx_set "gas" (PInt gas) tx in
     price <~ lift (gas_price p) ;;
     let tx := tx_set "gasPrice" (PInt price) tx in
     tx_hash <~ lift (send_transaction p tx) ;;
     receipt <~ lift (wait_for_transaction_receipt p tx_hash) ;;
     args <~ lift (py_dict (combine (map abi_input_dict (constructor_abi c))
                              constructor_args)) ;;
     _ <~ add_record ext chain_name contract_type (contractAddress receipt)
            (hexbytes_hex tx_hash) args ;;
     ret receipt)
    (fun e => raise (deploy_failed e)).

(** [interact_with_contract(contract, function_name, args, is_write,
    provider)]: a receipt from a write, the call's value from a read. *)
Definition interact_with_contract (c : contract) (function_name : string)
  (args : list pyval) (is_write : bool) (p : provider)
  : action (receipt + pyval) :=
  try_except
    (func <~ lift (functions c function_name) ;;
     if is_write then
       bound <~ lift (func args) ;;
       nonce <~ lift (get_transaction_count p (account_address p)) ;;
       tx <~ lift (build_transaction bound
                     [("from", PStr (account_address p)); ("nonce", PInt nonce)]) ;;
       gas <~ lift (estimate_gas p tx) ;;
       let tx := tx_set "gas" (PInt gas) tx in
       price <~ lift (gas_price p) ;;
       let tx := tx_set "gasPrice" (PInt price) tx in
       tx_hash <~ lift (send_transaction p tx) ;;
       receipt <~ lift (wait_for_transaction_receipt p tx_hash) ;;
       ret (inl receipt)
     else
       bound <~ lift (func args) ;;
       value <~ lift (call bound) ;;
       ret (inr value))
    (fun e => raise (interaction_failed e)).

(* ================================================================== *)
(** ** Vocabulary of the properties *)

(** A step that ended by reading something left less than [n] to read,
    and the fuel did not run out. *)
Definition progress {A} (r : scan A) (n : nat) : Prop :=
  match r with
  | Scanned _ rest => (String.length rest < n)%nat
  | Exhausted => False
  | _ => True
  end.

(** The value of a numeral of the Standard Library, read left to right. *)
Fixpoint uint_value (acc : Z) (d : Decimal.uint) : Z :=
  match d with
  | Decimal.Nil => acc
  | Decimal.D0 d' => uint_value (10 * acc + 0) d'
  | Decimal.D1 d' => uint_value (10 * acc + 1) d'
  | Decimal.D2 d' => uint_value (10 * acc + 2) d'
  | Decimal.D3 d' => uint_value (10 * acc + 3) d'
  | Decimal.D4 d' => uint_value (10 * acc + 4) d'
  | Decimal.D5 d' => uint_value (10 * acc + 5) d'
  | Decimal.D6 d' => uint_value (10 * acc + 6) d'
  | Decimal.D7 d' => uint_value (10 * acc + 7) d'
  | Decimal.D8 d' => uint_value (10 * acc + 8) d'
  | Decimal.D9 d' => uint_value (10 * acc + 9) d'
  end.

(** The normal form in the words of the design, of a value as the code
    tells them apart: a [HexBytes] becomes its hexadecimal text, a
    sequence the list of its normalised items, a mapping keeps its keys
    and their order and has its values normalised, everything else is
    left alone. *)
Fixpoint normalize (v : pyval) : pyval :=
  match v with
  | PHexBytes bs => PStr (hexbytes_hex bs)
  | PList l => PList (map normalize l)
  | PTuple l => PList (map normalize l)
  | PDict d => PDict (map (fun kv : pykey * pyval => (fst kv, normalize (snd kv))) d)
  | _ => v
  end.

(** No key of [ks] equals ([==]) a key before it. *)
Fixpoint distinct (ks : list pykey) : bool :=
  match ks with
  | [] => true
  | k :: ks' => forallb (fun k2 => negb (key_eqb k k2)) ks' && distinct ks'
  end.

(** A value Python can hold: the keys of each of its dicts are distinct. *)
Fixpoint well_formed (v : pyval) : bool :=
  match v with
  | PList l => forallb well_formed l
  | PTuple l => forallb well_formed l
  | PDict d =>
      distinct (map fst d)
      && forallb (fun kv : pykey * pyval => well_formed (snd kv)) d
  | _ => true
  end.

(** No [HexBytes] among the items and dict values of [v], at any depth. *)
Fixpoint no_hexbytes (v : pyval) : bool :=
  match v with
  | PHexBytes _ => false
  | PList l => forallb no_hexbytes l
  | PTuple l => forallb no_hexbytes l
  | PDict d => forallb (fun kv : pykey * pyval => no_hexbytes (snd kv)) d
  | _ => true
  end.

(** No byte string of either kind, [bytes] or [HexBytes], among the
    items and dict values of [v]. *)
Fixpoint no_byte_strings (v : pyval) : bool :=
  match v with
  | PBytes _ => false
  | PHexBytes _ => false
  | PList l => forallb no_byte_strings l
  | PTuple l => forallb no_byte_strings l
  | PDict d => forallb (fun kv : pykey * pyval => no_byte_strings (snd kv)) d
  | _ => true
  end.

Definition absent (k : pykey) (ks : list pykey) : bool :=
  forallb (fun k' => negb (key_eqb k' k)) ks.

(** The records the log holds, in stored order. *)
Definition stored (st : state) : list deployment := or_empty (DEPLOYMENTS_FILE st).

(** The network of [r] starts with [f], letter case apart. *)
Definition network_matches (f : string) (r : deployment) : bool :=
  startswith (lower (network r)) (lower f).

(** [sub] is [l] with some entries left out, the others in their order. *)
Inductive subsequence {A : Type} : list A -> list A -> Prop :=
| subseq_nil : subsequence [] []
| subseq_keep x sub l : subsequence sub l -> subsequence (x :: sub) (x :: l)
| subseq_skip x sub l : subsequence sub l -> subsequence sub (x :: l).

(** The transaction handed to [send_transaction]. *)
Definition priced (tx : transaction) (gas price : Z) : transaction :=
  tx_set "gasPrice" (PInt price) (tx_set "gas" (PInt gas) tx).

Definition call_options (p : provider) (nonce : Z) : transaction :=
  [("from", PStr (account_address p)); ("nonce", PInt nonce)].

(** A step of the pipeline raises [e], the steps before it having
    succeeded: binding the arguments, reading the nonce, building the
    transaction, estimating gas, reading the gas price, submitting,
    waiting for the receipt. *)
Inductive step_raises (p : provider) (bound : result bound_call) (e : exn) : Prop :=
| raises_binding :
    bound = Raise e -> step_raises p bound e
| raises_nonce b :
    bound = Ok b ->
    get_transaction_count p (account_address p) = Raise e ->
    step_raises p bound e
| raises_build b nonce :
    bound = Ok b ->
    get_transaction_count p (account_address p) = Ok nonce ->
    build_transaction b (call_options p nonce) = Raise e ->
    step_raises p bound e
| raises_estimate_gas b nonce tx :
    bound = Ok b ->
    get_transaction_count p (account_address p) = Ok nonce ->
    build_transaction b (call_options p nonce) = Ok tx ->
    estimate_gas p tx = Raise e ->
    step_raises p bound e
| raises_gas_price b nonce tx gas :
    bound = Ok b ->
    get_transaction_count p (account_address p) = Ok nonce ->
    build_transaction b (call_options p nonce) = Ok tx ->
    estimate_gas p tx = Ok gas ->
    gas_price p = Raise e ->
    step_raises p bound e
| raises_send b nonce tx gas price :
    bound = Ok b ->
    get_transaction_count p (account_address p) = Ok nonce ->
    build_transaction b (call_options p nonce) = Ok tx ->
    estimate_gas p tx = Ok gas ->
    gas_price p = Ok price ->
    send_transaction p (priced tx gas price) = Raise e ->
    step_raises p bound e
| raises_wait b nonce tx gas price h :
    bound = Ok b ->
    get_transaction_count p (account_address p) = Ok nonce ->
    build_transaction b (call_options p nonce) = Ok tx ->
    estimate_gas p tx = Ok gas ->
    gas_price p = Ok price ->
    send_transaction p (priced tx gas price) = Ok h ->
    wait_for_transaction_receipt p h = Raise e ->
    step_raises p bound e.

(** Every step succeeds: the transaction [h] is confirmed with receipt [r]. *)
Definition confirmed (p : provider) (bound : result bound_call)
  (h : list byte) (r : receipt) : Prop :=
  exists b nonce tx gas price,
    bound = Ok b
    /\ get_transaction_count p (account_address p) = Ok nonce
    /\ build_transaction b (call_options p nonce) = Ok tx
    /\ estimate_gas p tx = Ok gas
    /\ gas_price p = Ok price
    /\ send_transaction p (priced tx gas price) = Ok h
    /\ wait_for_transaction_receipt p h = Ok r.

(* ================================================================== *)
(** ** A world for the closed examples *)

(** An [extern] under which every str stands for an address already in
    checksum form, and a float is known by its numeral only. *)
Definition plain_extern : extern := {|
  to_checksum_address :=
    fun x =>
      match x with
      | JStr a => Ok a
      | _ => Raise (Exc TypeError "unsupported address value")
      end;
  float_to_int :=
    fun f => Raise (Exc OverflowError ("cannot convert float " ++ f ++ " to integer"));
  float_repr := fun f => f
|}.

(** A provider whose node answers every request; [estimate] is its
    answer to gas estimation. *)
Definition demo_provider (estimate : result Z) : provider := {|
  account_address := "0xA11CE";
  get_transaction_count := fun _ => Ok 7;
  estimate_gas := fun _ => estimate;
  gas_price := Ok 30;
  send_transaction := fun _ => Ok [x0a; xbc];
  wait_for_transaction_receipt :=
    fun h => Ok {| transactionHash := h; blockNumber := 12; gasUsed := 21000;
                   contractAddress := Some "0xC0FFEE" |}
|}.

Definition demo_bound : bound_call := {|
  build_transaction := fun options => Ok (("data", PStr "0x6080") :: options);
  call := Ok (PInt 0)
|}.

(** The DemoERC20 template: a constructor with three declared inputs and
    one function, [transfer]. *)
Definition demo_token : contract := {|
  constructor_abi :=
    [ {| name := "name_"; type := "string" |};
      {| name := "symbol_"; type := "string" |};
      {| name := "initialSupply"; type := "uint256" |} ];
  constructor := fun _ => Ok demo_bound;
  functions :=
    fun f =>
      if String.eqb f "transfer" then Ok (fun _ => Ok demo_bound)
      else Raise (Exc (LibraryError "ABIFunctionNotFound") f)
|}.

Definition demo_token_args : list pyval :=
  [PStr "Demo Token"; PStr "DEMO"; PInt 1000000000000000000000000].

Definition reverted : exn := Exc (LibraryError "ContractLogicError") "execution reverted".

Definition empty_log : state := {| DEPLOYMENTS_FILE := Some []; clock := 1700000000 |}.

Definition deadbeef : list byte := [xde; xad; xbe; xef].

Definition record_on (net addr : string) (t : Z) : deployment :=
  {| time := t; network := net; contract_type := "SimpleStorage";
     address := addr; tx_hash := "0x01"; constructor_args := PDict [] |}.


(* ================================================================== *)
(** ** Explorer links: [link_tx], [link_addr], [success_tx] *)

(** [link_tx(network, tx_hash)] *)
Definition link_tx (network tx_hash : string) : string :=
  if String.eqb (lower network) "mumbai"
  then "https://mumbai.polygonscan.com/tx/" ++ tx_hash
  else if String.eqb (lower network) "polygon"
  then "https://polygonscan.com/tx/" ++ tx_hash
  else tx_hash.

(** [link_addr(network, addr)] *)
Definition link_addr (network addr : string) : string :=
  if String.eqb (lower network) "mumbai"
  then "https://mumbai.polygonscan.com/address/" ++ addr
  else if String.eqb (lower network) "polygon"
  then "https://polygonscan.com/address/" ++ addr
  else addr.

(** [sub in s] for two strs *)
Fixpoint contains (s sub : string) : bool :=
  startswith s sub
  || match s with
     | "" => false
     | String _ s' => contains s' sub
     end.

(** [success_tx(w3, net_name, receipt)]: the text it hands to [st.success]
    and the one it hands to [st.markdown]. *)
Definition success_tx (net_name : string) (r : receipt) : string * string :=
  let txh := hexbytes_hex (transactionHash r) in
  ("交易已确认 ✅  区块: " ++ str_int (blockNumber r)
     ++ " | Gas Used: " ++ str_int (gasUsed r),
   "[在 Polygonscan 查看交易]("
     ++ link_tx (if contains (lower net_name) "mumbai" then "mumbai" else "polygon") txh
     ++ ")").

(* ================================================================== *)
(** ** [safe_int_input] *)



(* ================================================================== *)
(** ** Event logs: [format_event_log] *)

Module Log.

(** An entry of [get_logs]: the fields [format_event_log] reads. [args]
    holds the items of the event's arguments, a mapping. *)
Record t : Type := {
  event : string;
  address : string;
  blockNumber : Z;
  transactionHash : list byte;
  args : list (pykey * pyval)
}.

End Log.

(** [dict(m)] for a mapping with the items [m] *)
Definition dict_of_items (m : list (pykey * pyval)) : list (pykey * pyval) :=
  dict_comp (fun v => v) m [].

(** [format_event_log(lg)] *)
Definition format_event_log (lg : Log.t) : pyval :=
  PDict [ (KStr "event", PStr (Log.event lg));
          (KStr "address", PStr (Log.address lg));
          (KStr "blockNumber", PInt (Log.blockNumber lg));
          (KStr "transactionHash", PStr (hexbytes_hex (Log.transactionHash lg)));
          (KStr "args", decode_hexbytes (PDict (dict_of_items (Log.args lg)))) ].

(* ================================================================== *)
(** ** The provider: [Web3Provider.__init__] *)

(** The handle [Web3(HTTPProvider(rpc_url))] gives: whether its node
    answers, and the requests of [w3.eth] once an account is bound. *)
Record web3 : Type := {
  is_connected : bool;
  bind_account : string -> provider
}.

(** web3 and eth_account as [__init__] uses them; [from_key] gives the
    address of the account. *)
Record web3_lib : Type := {
  Web3 : string -> web3;
  from_key : string -> result string
}.

(** [Web3Provider(rpc_url, private_key)] *)
Definition Web3Provider (lib : web3_lib) (rpc_url private_key : string)
  : result provider :=
  let w3 := Web3 lib rpc_url in
  if negb (is_connected w3)
  then Raise (Exc RuntimeError "无法连接 RPC，请检查网络或 RPC URL。")
  else
    account <- (if startswith private_key "0x"
                then from_key lib private_key
                else from_key lib ("0x" ++ private_key)) ;;
    Ok (bind_account w3 account).

(* ================================================================== *)
(** ** The ABI cache: [ensure_dirs], [Compiler.compile], [Compiler.load_cached] *)

(** A directory of files by name: [lookup] reads one, [store] writes one
    (over the old content, or as a new last entry). *)
Fixpoint lookup {V : Type} (k : string) (files : list (string * V)) : option V :=
  match files with
  | [] => None
  | (k', v) :: files' => if String.eqb k' k then Some v else lookup k files'
  end.

Fixpoint store {V : Type} (k : string) (v : V) (files : list (string * V))
  : list (string * V) :=
  match files with
  | [] => [(k, v)]
  | (k', v') :: files' =>
      if String.eqb k' k then (k', v) :: files' else (k', v') :: store k v files'
  end.

(** [ABI_CACHE_DIR]: the [.abi.json] files, each holding the JSON value
    written to it, and the [.bin] files, each holding text; both by
    contract name. *)
Record cache : Type := {
  abi_files : list (string * json);
  bin_files : list (string * string)
}.

(** What is on disk under [BASE_DIR]: the cache directory ([None] when
    it does not exist) and the deployment log with the clock. *)
Record disk : Type := {
  ABI_CACHE_DIR : option cache;
  log : state
}.

(** [ensure_dirs()] *)
Definition ensure_dirs (d : disk) : disk :=
  {| ABI_CACHE_DIR :=
       match ABI_CACHE_DIR d with
       | Some c => Some c
       | None => Some {| abi_files := []; bin_files := [] |}
       end;
     log :=
       match DEPLOYMENTS_FILE (log d) with
       | Some _ => log d
       | None => {| DEPLOYMENTS_FILE := Some []; clock := clock (log d) |}
       end |}.

(** An entry of the compiler's output: ["abi"] and
    ["evm"]["bytecode"]["object"]. *)
Record compiled_contract : Type := {
  abi : json;
  bytecode_object : string
}.

(** A source file: where it is, and [source_path.name]. *)
Record source_file : Type := {
  path : string;
  file_name : string
}.

(** The file system and solc as [compile] uses them: [read_text] of the
    source, and the contracts [compile_standard] gives for the source of
    that name and content. *)
Record toolchain : Type := {
  cache_path : string;
  read_text : string -> result string;
  compile_standard : string -> string -> result (list (string * compiled_contract))
}.

Definition no_such_file (file : string) : exn :=
  Exc (LibraryError "FileNotFoundError")
    ("[Errno 2] No such file or directory: " ++ repr_str file).

(** [Compiler.compile(contract_name, source_path)] *)
Definition compile (tc : toolchain) (contract_name : string) (src : source_file)
  (d : disk) : result (json * json) * disk :=
  match read_text tc (path src) with
  | Raise e => (Raise e, d)
  | Ok content =>
      match compile_standard tc (file_name src) content with
      | Raise e => (Raise e, d)
      | Ok contracts =>
          match lookup contract_name contracts with
          | None =>
              (Raise (Exc ValueError
                        ("未在 " ++ file_name src ++ " 中找到合约 " ++ contract_name)),
               d)
          | Some c =>
              match ABI_CACHE_DIR d with
              | None =>
                  (Raise (no_such_file
                            (cache_path tc ++ "/" ++ contract_name ++ ".abi.json")),
                   d)
              | Some files =>
                  (Ok (abi c, JObj [("bytecode", JStr (bytecode_object c))]),
                   {| ABI_CACHE_DIR :=
                        Some {| abi_files := store contract_name (abi c) (abi_files files);
                                bin_files := store contract_name (bytecode_object c)
                                               (bin_files files) |};
                      log := log d |})
              end
          end
      end
  end.

(** [Compiler.load_cached(contract_name)] *)
Definition load_cached (contract_name : string) (d : disk) : option (json * string) :=
  match ABI_CACHE_DIR d with
  | None => None
  | Some files =>
      match lookup contract_name (abi_files files),
            lookup contract_name (bin_files files) with
      | Some a, Some b => Some (a, b)
      | _, _ => None
      end
  end.

(* ================================================================== *)
(** ** More vocabulary *)

(** A key [json.dumps] writes: a str, an int, a bool or [None]. *)
Definition key_encodable (k : pykey) : bool :=
  match k with
  | KNone => true
  | KBool _ => true
  | KInt _ => true
  | KStr _ => true
  | _ => false
  end.

(** Every dict key in [v], at any depth, is one [json.dumps] writes. *)
Fixpoint keys_encodable (v : pyval) : bool :=
  match v with
  | PList l => forallb keys_encodable l
  | PTuple l => forallb keys_encodable l
  | PDict d =>
      forallb (fun kv : pykey * pyval =>
                 key_encodable (fst kv) && keys_encodable (snd kv)) d
  | _ => true
  end.

(** The record [add_record] writes. *)
Definition new_record (st : state) (net ctype addr hash : string) (cargs : pyval)
  : deployment :=
  {| time := clock st; network := net; contract_type := ctype;
     address := addr; tx_hash := hash; constructor_args := cargs |}.

Definition address_value (a : option string) : json :=
  match a with
  | Some s => JStr s
  | None => JNull
  end.

(** A contract whose constructor takes no argument. *)
Definition storage_contract : contract := {|
  constructor_abi := [];
  constructor := fun _ => Ok demo_bound;
  functions := fun f => Raise (Exc (LibraryError "ABIFunctionNotFound") f)
|}.

(** A value [decode_hexbytes] has nothing to do on: no [HexBytes] and no
    tuple among its items and dict values, and distinct keys in every
    dict. *)
Fixpoint normal_form (v : pyval) : bool :=
  match v with
  | PHexBytes _ => false
  | PTuple _ => false
  | PList l => forallb normal_form l
  | PDict d =>
      distinct (map fst d)
      && forallb (fun kv : pykey * pyval => normal_form (snd kv)) d
  | _ => true
  end.

(** The keys and values of the items [d] are all ones [json.dumps]
    writes. *)
Definition encodable_items (d : list (pykey * pyval)) : bool :=
  forallb (fun kv : pykey * pyval =>
             key_encodable (fst kv) && keys_encodable (snd kv)) d.

(** [cached if cached else compiler.compile(template, source)] of
    [main], the pair it unpacks into [abi, bytecode]. *)
Definition cached_or_compiled (tc : toolchain) (template : string)
  (src : source_file) (d : disk) : result (json * json) * disk :=
  match load_cached template d with
  | Some (a, b) => (Ok (a, JStr b), d)
  | None => compile tc template src d
  end.

(** A tool chain that finds [SimpleStorage] in its source file. *)
Definition demo_toolchain : toolchain := {|
  cache_path := "abi_cache";
  read_text := fun _ => Ok "contract SimpleStorage {}";
  compile_standard := fun _ _ =>
    Ok [("SimpleStorage", {| abi := JArr []; bytecode_object := "6080" |})]
|}.

Definition storage_source : source_file :=
  {| path := "contracts/SimpleStorage.sol"; file_name := "SimpleStorage.sol" |}.

Definition fresh_disk : disk :=
  {| ABI_CACHE_DIR := None; log := {| DEPLOYMENTS_FILE := None; clock := 1700000000 |} |}.

(** A library whose node answers and whose accounts are named by their
    key. *)
Definition demo_lib : web3_lib := {|
  Web3 := fun _ =>
    {| is_connected := true;
       bind_account := fun a =>
         {| account_address := a;
            get_transaction_count := get_transaction_count (demo_provider (Ok 21000));
            estimate_gas := estimate_gas (demo_provider (Ok 21000));
            gas_price := gas_price (demo_provider (Ok 21000));
            send_transaction := send_transaction (demo_provider (Ok 21000));
            wait_for_transaction_receipt :=
              wait_for_transaction_receipt (demo_provider (Ok 21000)) |} |};
  from_key := fun k => Ok ("account of " ++ k)
|}.

(** A printable ASCII character that a JSON string holds as itself. *)
Definition plain_char (c : ascii) : bool :=
  in_range 32 126 c && negb (Ascii.eqb c "034") && negb (Ascii.eqb c "\").

Fixpoint plain (s : string) : bool :=
  match s with
  | "" => true
  | String c s' => plain_char c && plain s'
  end.

(** An item that reads the same in a JSON array and between commas:
    printable ASCII without quote, backslash or comma, not empty, no
    blank at either end. *)
Definition array_token (t : string) : bool :=
  plain t && negb (String.eqb t "") && String.eqb (strip t) t
  && negb (contains_char "," t).

(** The JSON array of the strs [ss], as [json.dumps(ss)] writes it. *)
Definition json_array_text (ss : list string) : string :=
  "[" ++ join ", " (map (fun s => quote ++ s ++ quote) ss) ++ "]".

(* ================================================================== *)
(** * Properties *)

#[local] Arguments Ascii.eqb : simpl never.
#[local] Arguments Z.mul : simpl never.
#[local] Arguments Z.add : simpl never.

(** ** Loops and comprehensions *)

Lemma for_each_append {A B} (f : A -> result B) (l : list A) (acc : list B) :
  for_each (fun (acc : list B) x => y <- f x ;; Ok (acc ++ [y])%list) l acc
  = (ys <- list_comp f l ;; Ok (acc ++ ys)%list).
Proof.
  revert acc; induction l as [|x l IH]; intros acc; simpl.
  - now rewrite List.app_nil_r.
  - destruct (f x) as [y|e]; simpl; [|reflexivity].
    rewrite IH. destruct (list_comp f l) as [ys|e]; simpl; [|reflexivity].
    now rewrite <- List.app_assoc.
Qed.

Lemma list_comp_length {A B} (f : A -> result B) (l : list A) (out : list B) :
  list_comp f l = Ok out -> List.length out = List.length l.
Proof.
  revert out; induction l as [|x l IH]; intros out; simpl.
  - intros [= <-]; reflexivity.
  - destruct (f x) as [y|e]; simpl; [|discriminate].
    destruct (list_comp f l) as [ys|e]; simpl; [|discriminate].
    intros [= <-]; simpl; f_equal; now apply IH.
Qed.

Lemma list_comp_Forall2 {A B} (f : A -> result B) (l : list A) (out : list B) :
  list_comp f l = Ok out <-> Forall2 (fun x y => f x = Ok y) l out.
Proof.
  revert out; induction l as [|x l IH]; intros out; simpl.
  - split; [intros [= <-]; constructor | inversion 1; reflexivity].
  - split.
    + destruct (f x) as [y|e] eqn:Hx; simpl; [|discriminate].
      destruct (list_comp f l) as [ys|e] eqn:Hl; simpl; [|discriminate].
      intros [= <-]; constructor; [assumption | now apply IH].
    + inversion 1 as [|? y ? ys Hx Hl]; subst.
      rewrite Hx; simpl. apply IH in Hl. now rewrite Hl.
Qed.

Lemma list_comp_total {A B} (f : A -> result B) (l : list A) :
  (forall x, In x l -> exists y, f x = Ok y) -> exists out, list_comp f l = Ok out.
Proof.
  induction l as [|x l IH]; simpl; intros H.
  - now exists [].
  - destruct (H x (or_introl eq_refl)) as [y Hy].
    destruct IH as [ys Hys]; [intros; apply H; now right|].
    exists (y :: ys). now rewrite Hy, Hys.
Qed.

Lemma for_each_ext {A S} (f g : S -> A -> result S) (l : list A) (acc : S) :
  (forall a x, f a x = g a x) -> for_each f l acc = for_each g l acc.
Proof.
  intros H; revert acc; induction l as [|x l IH]; intros acc; simpl.
  - reflexivity.
  - rewrite H. destruct (g acc x); simpl; [apply IH | reflexivity].
Qed.

(* ------------------------------------------------------------------ *)
(** ** The JSON decoder never runs out of fuel *)

Lemma skip_ws_length s : (String.length (skip_ws s) <= String.length s)%nat.
Proof.
  induction s as [|c s IH]; simpl; [lia|].
  destruct (json_ws c); simpl; lia.
Qed.

Lemma drop_length s n : (String.length (drop n s) <= String.length s)%nat.
Proof.
  revert s; induction n as [|n IH]; intros [|c s]; simpl; try lia.
  specialize (IH s). lia.
Qed.

Lemma head_is_drop c s :
  head_is c s = true -> S (String.length (drop 1 s)) = String.length s.
Proof. destruct s; simpl; [discriminate | reflexivity]. Qed.

Lemma drop_shorter s n :
  s <> "" -> (0 < n)%nat -> (String.length (drop n s) < String.length s)%nat.
Proof.
  destruct s as [|c s]; [congruence|]. destruct n; [lia|]. intros _ _. simpl.
  pose proof (drop_length s n). lia.
Qed.

Lemma span_digits_length s :
  (String.length (snd (span_digits s)) <= String.length s)%nat.
Proof.
  induction s as [|c s IH]; simpl; [lia|].
  destruct (is_digit c); simpl; [|lia].
  destruct (span_digits s); simpl in *; lia.
Qed.

Lemma match_frac_length s :
  (String.length (snd (match_frac s)) <= String.length s)%nat.
Proof.
  unfold match_frac. destruct s as [|c s]; simpl; [lia|].
  destruct (Ascii.eqb_spec c "."); subst; [|
    destruct c as [[|] [|] [|] [|] [|] [|] [|] [|]]; simpl; try lia; congruence].
  pose proof (span_digits_length s).
  destruct (span_digits s) as [[|d ds] rest]; simpl in *; lia.
Qed.

Lemma match_exp_length s :
  (String.length (snd (match_exp s)) <= String.length s)%nat.
Proof.
  unfold match_exp. destruct s as [|e s]; simpl; [lia|].
  destruct (Ascii.eqb e "e" || Ascii.eqb e "E"); simpl; [|lia].
  destruct s as [|g t]; simpl; [lia|].
  destruct (Ascii.eqb g "-" || Ascii.eqb g "+").
  - pose proof (span_digits_length t).
    destruct (span_digits t) as [[|d ds] rest]; simpl in *; lia.
  - pose proof (span_digits_length (String g t)).
    destruct (span_digits (String g t)) as [[|d ds] rest]; simpl in *; lia.
Qed.

Lemma number_tail_length neg ds rest :
  (String.length (snd (number_tail neg ds rest)) <= String.length rest)%nat.
Proof.
  unfold number_tail.
  pose proof (match_frac_length rest) as Hf.
  destruct (match_frac rest) as [frac rest1]; simpl in Hf.
  pose proof (match_exp_length rest1) as He.
  destruct (match_exp rest1) as [exp rest2]; simpl in He.
  destruct frac, exp; simpl; lia.
Qed.

Lemma match_unsigned_shorter neg s v rest :
  match_unsigned neg s = Some (v, rest) ->
  (String.length rest < String.length s)%nat.
Proof.
  destruct s as [|c s']; simpl; [discriminate|].
  destruct (is_digit c); [|discriminate].
  destruct (Ascii.eqb c "0").
  - pose proof (number_tail_length neg "0" s') as H.
    destruct (number_tail neg "0" s'); intros [= <- <-]. simpl in H. lia.
  - pose proof (span_digits_length s') as Hs.
    destruct (span_digits s') as [ds r0]; simpl in Hs.
    pose proof (number_tail_length neg (String c ds) r0) as H.
    destruct (number_tail neg (String c ds) r0); intros [= <- <-]. simpl in H. lia.
Qed.

Lemma match_number_shorter s v rest :
  match_number s = Some (v, rest) -> (String.length rest < String.length s)%nat.
Proof.
  destruct s as [|c s']; cbn [match_number]; [discriminate|].
  destruct (Ascii.eqb c "-"); intros H; apply match_unsigned_shorter in H;
    cbn [String.length] in *; lia.
Qed.

Lemma startswith_nonempty s p : p <> "" -> startswith s p = true -> s <> "".
Proof. destruct p; [congruence|]. destruct s; simpl; congruence. Qed.

Lemma progress_map {A B} (f : A -> B) r n : progress (scan_map f r) n <-> progress r n.
Proof. destruct r; simpl; tauto. Qed.

Lemma progress_le {A} (r : scan A) n m : progress r n -> (n <= m)%nat -> progress r m.
Proof. destruct r; simpl; auto; lia. Qed.

Lemma scanstring_progress begin s : progress (scanstring begin s) (String.length s).
Proof.
  remember (String.length s) as n eqn:Hn.
  assert (Hle : (String.length s <= n)%nat) by lia. clear Hn.
  revert s Hle. induction n as [n IH] using (well_founded_induction lt_wf).
  intros s Hle.
  assert (Hrec : forall t, (String.length t < String.length s)%nat ->
                   progress (scanstring begin t) n).
  { intros t Ht. apply (progress_le _ (String.length t)); [|lia].
    apply (IH (String.length t)); lia. }
  destruct s as [|c r]; [exact I|]. cbn [scanstring]. simpl in Hrec.
  destruct (Ascii.eqb c "034"); [simpl in *; lia|].
  destruct (Ascii.eqb c "\").
  2:{ destruct (in_range 0 31 c); [exact I|].
      apply progress_map, Hrec. lia. }
  destruct r as [|e r1]; [exact I|]. simpl in Hrec.
  destruct (Ascii.eqb e "u").
  2:{ destruct (backslash e); [|exact I]. apply progress_map, Hrec. lia. }
  destruct r1 as [|h1 [|h2 [|h3 [|h4 r5]]]]; try exact I. simpl in Hrec.
  destruct (hex4 h1 h2 h3 h4) as [u|]; [|exact I].
  assert (H5 : progress (scan_prepend (chr u) (scanstring begin r5)) n)
    by (apply progress_map, Hrec; lia).
  destruct r5 as [|b [|v [|g1 [|g2 [|g3 [|g4 r11]]]]]]; try exact H5.
  destruct (is_high_surrogate u && Ascii.eqb b "\" && Ascii.eqb v "u"
            && negb (String.eqb r11 "")); [|exact H5].
  destruct (hex4 g1 g2 g3 g4) as [u2|]; [|exact I].
  destruct (is_low_surrogate u2); [|exact H5].
  apply progress_map, Hrec. simpl. lia.
Qed.

Lemma decoder_progress (fuel : nat) :
  (forall s, (2 * String.length s < fuel)%nat ->
     progress (scan_once fuel s) (String.length s))
  /\ (forall acc s, (2 * String.length s + 1 < fuel)%nat ->
        progress (array_items fuel acc s) (String.length s))
  /\ (forall acc s, (2 * String.length s + 1 < fuel)%nat ->
        progress (object_members fuel acc s) (String.length s)).
Proof.
  induction fuel as [|fuel (IHscan & IHarr & IHobj)]; [repeat split; intros; lia|].
  split; [|split].
  - intros [|c r] Hf; [exact I|]. cbn [scan_once]. cbn [String.length] in Hf |- *.
    destruct (Ascii.eqb c "034").
    { apply progress_map. eapply progress_le; [apply scanstring_progress | lia]. }
    destruct (Ascii.eqb c "{").
    { pose proof (skip_ws_length r) as Hw.
      destruct (head_is "}" (skip_ws r)) eqn:H1.
      { apply head_is_drop in H1. cbn [progress]. lia. }
      destruct (head_is "034" (skip_ws r)) eqn:H2; [|exact I].
      apply head_is_drop in H2.
      eapply progress_le; [apply IHobj|]; lia. }
    destruct (Ascii.eqb c "[").
    { pose proof (skip_ws_length r) as Hw.
      destruct (head_is "]" (skip_ws r)) eqn:H1.
      { apply head_is_drop in H1. cbn [progress]. lia. }
      eapply progress_le; [apply IHarr|]; lia. }
    set (s := String c r) in *.
    assert (Hdrop : forall n, (0 < n)%nat ->
              (String.length (drop n s) < S (String.length r))%nat).
    { intros n Hn. apply (drop_shorter s n); [discriminate | exact Hn]. }
    destruct (startswith s "null"); [apply Hdrop; lia|].
    destruct (startswith s "true"); [apply Hdrop; lia|].
    destruct (startswith s "false"); [apply Hdrop; lia|].
    destruct (match_number s) as [[v rest]|] eqn:Hm.
    { apply match_number_shorter in Hm. exact Hm. }
    destruct (startswith s "NaN"); [apply Hdrop; lia|].
    destruct (startswith s "Infinity"); [apply Hdrop; lia|].
    destruct (startswith s "-Infinity"); [apply Hdrop; lia | exact I].
  - intros acc s Hf. cbn [array_items].
    pose proof (IHscan s ltac:(lia)) as Hv.
    destruct (scan_once fuel s) as [v rest| | |]; try exact I; [|contradiction].
    cbn [progress] in Hv. pose proof (skip_ws_length rest) as Hw.
    destruct (head_is "]" (skip_ws rest)) eqn:H1.
    { apply head_is_drop in H1. cbn [progress]. lia. }
    destruct (head_is "," (skip_ws rest)) eqn:H2; [|exact I].
    apply head_is_drop in H2.
    pose proof (skip_ws_length (drop 1 (skip_ws rest))) as Hw2.
    eapply progress_le; [apply IHarr|]; lia.
  - intros acc s Hf. cbn [object_members].
    pose proof (scanstring_progress (S (String.length s)) s) as Hk.
    destruct (scanstring (S (String.length s)) s) as [key rest| | |];
      try exact I; [|contradiction].
    cbn [progress] in Hk. pose proof (skip_ws_length rest) as Hw.
    destruct (head_is ":" (skip_ws rest)) eqn:H1; [|exact I].
    apply head_is_drop in H1.
    pose proof (skip_ws_length (drop 1 (skip_ws rest))) as Hw1.
    pose proof (IHscan (skip_ws (drop 1 (skip_ws rest))) ltac:(lia)) as Hv.
    destruct (scan_once fuel (skip_ws (drop 1 (skip_ws rest)))) as [v rest2| | |];
      try exact I; [|contradiction].
    cbn [progress] in Hv. pose proof (skip_ws_length rest2) as Hw2.
    destruct (head_is "}" (skip_ws rest2)) eqn:H2.
    { apply head_is_drop in H2. cbn [progress]. lia. }
    destruct (head_is "," (skip_ws rest2)) eqn:H3; [|exact I].
    apply head_is_drop in H3.
    pose proof (skip_ws_length (drop 1 (skip_ws rest2))) as Hw3.
    destruct (head_is "034" (skip_ws (drop 1 (skip_ws rest2)))) eqn:H4; [|exact I].
    apply head_is_drop in H4.
    eapply progress_le; [apply IHobj|]; lia.
Qed.

(** [json_loads] gives its decoder fuel enough for any text: the model's
    own failure never shows. *)
Lemma json_loads_has_fuel doc :
  scan_once (loads_fuel doc) (skip_ws doc) <> Exhausted.
Proof.
  pose proof (skip_ws_length doc) as Hw.
  pose proof (proj1 (decoder_progress (loads_fuel doc)) (skip_ws doc)) as H.
  unfold loads_fuel in *. intros E. rewrite E in H. apply H. lia.
Qed.

(* ------------------------------------------------------------------ *)
(** ** Strings *)

Lemma contains_lstrip c s :
  is_space c = false -> contains_char c (lstrip s) = contains_char c s.
Proof.
  intros Hc; induction s as [|d s IH]; simpl; [reflexivity|].
  destruct (is_space d) eqn:Hd; simpl; [|reflexivity].
  rewrite IH. destruct (Ascii.eqb_spec c d) as [-> | ]; [congruence | reflexivity].
Qed.

Lemma contains_rstrip c s :
  is_space c = false -> contains_char c (rstrip s) = contains_char c s.
Proof.
  intros Hc; induction s as [|d s IH]; simpl; [reflexivity|].
  destruct (rstrip s) as [|e r] eqn:Hr.
  - simpl in IH. rewrite <- IH, orb_false_r.
    destruct (is_space d) eqn:Hd; simpl; [|now rewrite orb_false_r].
    destruct (Ascii.eqb_spec c d) as [-> | ]; [congruence | reflexivity].
  - simpl in *. now rewrite IH.
Qed.

Lemma contains_strip c s :
  is_space c = false -> contains_char c (strip s) = contains_char c s.
Proof.
  intros Hc; unfold strip. now rewrite contains_rstrip, contains_lstrip.
Qed.

Lemma split_no_sep sep s : contains_char sep s = false -> split sep s = [s].
Proof.
  induction s as [|c s IH]; simpl; [reflexivity|].
  rewrite Ascii.eqb_sym.
  destruct (Ascii.eqb c sep); simpl; [discriminate|].
  intros H; now rewrite (IH H).
Qed.

(** What [rstrip] leaves does not end with a blank, so stripping again
    changes nothing. *)
Lemma rstrip_idem s : rstrip (rstrip s) = rstrip s.
Proof.
  induction s as [|c s IH]; simpl; [reflexivity|].
  destruct (rstrip s) as [|e r] eqn:Hr.
  - destruct (is_space c) eqn:Hc; simpl; [reflexivity | now rewrite Hc].
  - simpl in IH |- *.
    destruct (match rstrip r with "" => if is_space e then "" else String e "" | String a s0 => String e (String a s0) end) eqn:Hm.
    + discriminate.
    + now rewrite IH.
Qed.

Lemma rstrip_head c s :
  is_space c = false -> exists r, rstrip (String c s) = String c r.
Proof.
  intros Hc; simpl. destruct (rstrip s); [rewrite Hc|]; eauto.
Qed.

Lemma lstrip_head s : 
  match lstrip s with
  | "" => True
  | String c _ => is_space c = false
  end.
Proof.
  induction s as [|c s IH]; simpl; [exact I|].
  destruct (is_space c) eqn:Hc; [exact IH | exact Hc].
Qed.

Lemma strip_idem s : strip (strip s) = strip s.
Proof.
  unfold strip.
  pose proof (lstrip_head s) as H.
  destruct (lstrip s) as [|c r] eqn:Hl; [reflexivity|].
  destruct (rstrip_head c r H) as [r' Hr']. rewrite Hr'.
  cbn [lstrip]. rewrite H, <- Hr'. apply rstrip_idem.
Qed.

(* ------------------------------------------------------------------ *)
(** ** Integers and their numerals *)

Lemma is_digit_not_space c : is_digit c = true -> is_space c = false.
Proof.
  destruct c as [ [ | ] [ | ] [ | ] [ | ] [ | ] [ | ] [ | ] [ | ] ]; cbv; congruence.
Qed.

Lemma all_digits_lstrip s : all_digits s = true -> lstrip s = s.
Proof.
  destruct s as [|c s]; simpl; [reflexivity|].
  intros [Hc _]%andb_prop. now rewrite (is_digit_not_space c Hc).
Qed.

Lemma all_digits_rstrip s : all_digits s = true -> rstrip s = s.
Proof.
  induction s as [|c s IH]; simpl; [reflexivity|].
  intros [Hc Hs]%andb_prop. rewrite (IH Hs).
  destruct s; [now rewrite (is_digit_not_space c Hc) | reflexivity].
Qed.

Lemma all_digits_strip s : all_digits s = true -> strip s = s.
Proof.
  intros H; unfold strip. rewrite (all_digits_lstrip s H). now apply all_digits_rstrip.
Qed.

Lemma int_digits_all_digits s : forall b acc,
  all_digits s = true -> s <> "" \/ b = true ->
  int_digits b acc s = Some (digits_value acc s).
Proof.
  induction s as [|c s IH]; simpl; intros b acc Hs Hb.
  - destruct Hb as [Hb | ->]; [congruence | reflexivity].
  - apply andb_prop in Hs as [Hc Hs]. rewrite Hc. apply IH; auto.
Qed.

Lemma of_uint_acc_value d : forall acc,
  Z.pos (Pos.of_uint_acc d acc) = uint_value (Z.pos acc) d.
Proof.
  induction d; intros acc; cbn [Pos.of_uint_acc uint_value]; try reflexivity;
    rewrite IHd; apply (f_equal (fun a => uint_value a d)); lia.
Qed.

Lemma of_uint_value d : Z.of_uint d = uint_value 0 d.
Proof.
  unfold Z.of_uint.
  induction d; cbn [Pos.of_uint uint_value Z.of_N]; try reflexivity;
    try assumption; now rewrite of_uint_acc_value.
Qed.

Lemma digits_value_uint d : forall acc,
  digits_value acc (NilEmpty.string_of_uint d) = uint_value acc d.
Proof.
  induction d; intros acc; simpl; try reflexivity; apply IHd.
Qed.

Lemma all_digits_uint s :
  all_digits s = true -> exists d, NilEmpty.uint_of_string s = Some d.
Proof.
  induction s as [|c s IH]; simpl; [eauto|].
  intros [Hc Hs]%andb_prop. destruct (IH Hs) as [d ->].
  destruct c as [ [ | ] [ | ] [ | ] [ | ] [ | ] [ | ] [ | ] [ | ] ]; try discriminate Hc; simpl; eauto.
Qed.

Lemma uint_all_digits d : all_digits (NilEmpty.string_of_uint d) = true.
Proof. induction d; simpl; auto. Qed.

(** A numeral is what [str] prints of the number it reads as. *)
Lemma nat_literal_str s :
  nat_literal s = true -> str_int (digits_value 0 s) = s /\ 0 <= digits_value 0 s.
Proof.
  destruct s as [|c r]; [discriminate|].
  unfold nat_literal. intros [Hd Hz]%andb_prop.
  destruct (all_digits_uint _ Hd) as [d Hu].
  pose proof (NilEmpty.sus _ _ Hu) as Hs.
  rewrite <- Hs, digits_value_uint, <- of_uint_value.
  assert (Hn : Decimal.unorm d = d).
  { destruct d; simpl in Hs; try discriminate; try reflexivity.
    injection Hs as <- <-. simpl in Hz.
    destruct d; simpl in *; try reflexivity; discriminate. }
  split.
  - unfold str_int.
    change (Z.of_uint d) with (Z.of_int (Decimal.Pos d)).
    rewrite DecimalZ.to_of. simpl. rewrite Hn.
    destruct d; simpl in *; try reflexivity. discriminate.
  - unfold Z.of_uint. apply N2Z.is_nonneg.
Qed.

Lemma nat_literal_int s :
  nat_literal s = true -> int_literal s = Some (digits_value 0 s).
Proof.
  destruct s as [|c r]; [discriminate|].
  unfold nat_literal. intros [Hd _]%andb_prop.
  unfold int_literal. rewrite (all_digits_strip _ Hd).
  simpl in Hd. apply andb_prop in Hd as [Hc Hr].
  destruct (Ascii.eqb_spec c "+") as [-> | ]; [discriminate|].
  destruct (Ascii.eqb_spec c "-") as [-> | ]; [discriminate|].
  apply int_digits_all_digits; [simpl; now rewrite Hc, Hr | left; discriminate].
Qed.

Lemma int_digits_no_comma s : forall b acc z,
  int_digits b acc s = Some z -> contains_char "," s = false.
Proof.
  induction s as [|c s IH]; simpl; intros b acc z H; [reflexivity|].
  destruct (is_digit c) eqn:Hc.
  - rewrite (IH _ _ _ H), orb_false_r.
    destruct (Ascii.eqb_spec "," c) as [<- | ]; [discriminate | reflexivity].
  - destruct (Ascii.eqb_spec c "_") as [-> | ]; simpl in H; [|discriminate].
    destruct b; [|discriminate]. now rewrite (IH _ _ _ H).
Qed.

Lemma int_literal_no_comma s z :
  int_literal s = Some z -> contains_char "," s = false.
Proof.
  unfold int_literal. rewrite <- (contains_strip "," s) by reflexivity.
  destruct (strip s) as [|c d]; [discriminate|].
  destruct (Ascii.eqb_spec c "+") as [-> | ].
  { intros H. simpl. exact (int_digits_no_comma _ _ _ _ H). }
  destruct (Ascii.eqb_spec c "-") as [-> | ].
  { destruct (int_digits false 0 d) eqn:H; [|discriminate].
    intros _. simpl. exact (int_digits_no_comma _ _ _ _ H). }
  apply int_digits_no_comma.
Qed.

Lemma int_literal_strip s : int_literal (strip s) = int_literal s.
Proof. unfold int_literal. now rewrite strip_idem. Qed.

Lemma int_literal_nonblank s z : int_literal s = Some z -> strip s <> "".
Proof. unfold int_literal. destruct (strip s); [discriminate | discriminate]. Qed.

(** A text [int()] accepts is its own and only comma token. *)
Lemma int_literal_tokens s z :
  int_literal s = Some z -> comma_tokens s = [strip s].
Proof.
  intros H. unfold comma_tokens.
  rewrite (split_no_sep _ _ (int_literal_no_comma _ _ H)). simpl.
  destruct (String.eqb_spec (strip s) "") as [E | _]; [|reflexivity].
  now apply int_literal_nonblank in H.
Qed.

Lemma startswith_app s p x : startswith s p = true -> startswith (s ++ x) p = true.
Proof.
  revert s; induction p as [|c p IH]; intros s; [reflexivity|].
  destruct s as [|d s]; simpl; [discriminate|].
  intros [-> H]%andb_prop. now apply IH.
Qed.

Lemma is_int_type_app base x : is_int_type base = true -> is_int_type (base ++ x) = true.
Proof.
  unfold is_int_type.
  intros [H|H]%orb_prop; rewrite (startswith_app _ _ x H); auto using orb_true_r.
Qed.

Lemma is_int_type_array base : is_int_type (base ++ "[]") = is_int_type base.
Proof.
  destruct (is_int_type base) eqn:H; [now apply is_int_type_app|].
  unfold is_int_type in *.
  destruct base as [|c1 [|c2 [|c3 [|c4 r]]]]; try reflexivity; simpl in *.
  all: repeat match goal with
       | |- context [Ascii.eqb ?a ?b] =>
           destruct (Ascii.eqb_spec a b); subst; simpl in *
       end; try reflexivity; try discriminate; try congruence.
Qed.

Lemma length_app s x : String.length (s ++ x) = (String.length s + String.length x)%nat.
Proof. induction s; simpl; auto. Qed.

Lemma substring_app_l s x : substring 0 (String.length s) (s ++ x) = s.
Proof. induction s; simpl; [now destruct x | now f_equal]. Qed.

Lemma substring_app_r s x : substring (String.length s) (String.length x) (s ++ x) = x.
Proof.
  induction s; simpl; [|assumption].
  induction x; simpl; [reflexivity | now f_equal].
Qed.

Lemma endswith_app s x : endswith (s ++ x) x = true.
Proof.
  unfold endswith. rewrite length_app.
  replace (String.length s + String.length x - String.length x)%nat
    with (String.length s) by lia.
  rewrite substring_app_r, String.eqb_refl, andb_true_r.
  apply Nat.leb_le; lia.
Qed.

Lemma drop_last_app s x : drop_last (String.length x) (s ++ x) = s.
Proof.
  unfold drop_last. rewrite length_app.
  replace (String.length s + String.length x - String.length x)%nat
    with (String.length s) by lia.
  apply substring_app_l.
Qed.

Lemma array_type_not_scalar base w :
  contains_char "]" w = false -> String.eqb (base ++ "[]") w = false.
Proof.
  intros Hw. destruct (String.eqb_spec (base ++ "[]") w) as [E | ]; [|reflexivity].
  subst w. exfalso. revert Hw. induction base; simpl.
  - discriminate.
  - destruct (Ascii.eqb "]" a); simpl; [discriminate | assumption].
Qed.

(* ================================================================== *)
(** ** Type coercion *)

Section Coercion.

Variable ext : extern.

(** [convert_args] is the comprehension of [convert_arg] over the zipped
    sequences. *)
Lemma convert_args_comp inputs_abi args_raw :
  convert_args ext inputs_abi args_raw
  = list_comp (fun p : abi_input * string => convert_arg ext (fst p) (snd p))
      (combine inputs_abi args_raw).
Proof.
  unfold convert_args.
  rewrite for_each_ext with
    (g := fun (acc : list pyval) (p : abi_input * string) =>
            y <- convert_arg ext (fst p) (snd p) ;; Ok (acc ++ [y])%list)
    by (intros a [spec raw]; reflexivity).
  rewrite for_each_append.
  destruct (list_comp _ _); reflexivity.
Qed.

(** One spec and one raw argument: one turn of the loop. *)
Lemma convert_args_one spec raw :
  convert_args ext [spec] [raw] = (v <- convert_arg ext spec raw ;; Ok [v]).
Proof. unfold convert_args; simpl. now destruct (convert_arg ext spec raw). Qed.

(** A type tag that starts like an integer type is coerced with [int()],
    whatever follows the prefix. *)
Lemma convert_arg_int spec raw :
  is_int_type (type spec) = true ->
  convert_arg ext spec raw = (n <- int_of_str raw ;; Ok (PInt n)).
Proof. unfold convert_arg. now intros ->. Qed.

(** An array tag whose base is not an integer type reaches the array
    branch. *)
Lemma convert_arg_array nm base raw :
  is_int_type base = false ->
  convert_arg ext {| name := nm; type := base ++ "[]" |} raw
  = (arr <- parse_array raw ;;
     if String.eqb base "address" then
       l <- list_comp (to_checksum_address ext) arr ;; Ok (PList (map PStr l))
     else if String.eqb base "string" then
       Ok (PList (map (fun x => PStr (py_str ext x)) arr))
     else Raise (unsupported_array (base ++ "[]"))).
Proof.
  intros Hb. unfold convert_arg. cbn [type].
  rewrite is_int_type_array, Hb.
  rewrite !array_type_not_scalar by reflexivity.
  rewrite endswith_app.
  change 2%nat with (String.length "[]"). rewrite drop_last_app, Hb.
  reflexivity.
Qed.

(** C4. Coercion of a [bool] spec never raises: the value is [True]
    exactly when the lowercased text is one of "1", "true", "yes", "y",
    "t"; so "1", "true", "yes", "y", "t", "TRUE", "Y" give [True] and
    "0", "false", "", "no" give [False]. *)
Theorem bool_coercion_is_total (nm raw : string) :
  let spec := {| name := nm; type := "bool" |} in
  (exists b : bool,
      convert_args ext [spec] [raw] = Ok [PBool b]
      /\ (b = true <-> In (lower raw) ["1"; "true"; "yes"; "y"; "t"]))
  /\ Forall (fun r => convert_args ext [spec] [r] = Ok [PBool true])
       ["1"; "true"; "yes"; "y"; "t"; "TRUE"; "Y"]
  /\ Forall (fun r => convert_args ext [spec] [r] = Ok [PBool false])
       ["0"; "false"; ""; "no"].
Proof.
  intros spec. split; [|split].
  - exists (str_in (lower raw) truthy_words). split; [reflexivity|].
    unfold str_in, truthy_words. rewrite existsb_exists. split.
    + intros [w [Hw E]]. apply String.eqb_eq in E. now subst.
    + intros H. exists (lower raw). split; [assumption | apply String.eqb_refl].
  - repeat constructor.
  - repeat constructor.
Qed.

(** C3, as the code has it. Sequences of unequal length are paired
    position by position and the excess of the longer one is dropped
    without a word: the outcome is that of coercing both sequences cut to
    the shorter length. What is returned has that length and holds the
    coerced entries in order, and it is returned whenever every paired
    entry coerces; an entry that does not coerce raises its own error. *)
Theorem unequal_lengths_are_truncated
  (inputs_abi : list abi_input) (args_raw : list string) :
  List.length inputs_abi <> List.length args_raw ->
  let m := Nat.min (List.length inputs_abi) (List.length args_raw) in
  convert_args ext inputs_abi args_raw
  = convert_args ext (firstn m inputs_abi) (firstn m args_raw)
  /\ (forall out, convert_args ext inputs_abi args_raw = Ok out ->
        List.length out = m
        /\ Forall2 (fun p v => convert_arg ext (fst p) (snd p) = Ok v)
             (combine (firstn m inputs_abi) (firstn m args_raw)) out)
  /\ ((forall spec raw, In (spec, raw) (combine inputs_abi args_raw) ->
         exists v, convert_arg ext spec raw = Ok v) ->
      exists out, convert_args ext inputs_abi args_raw = Ok out).
Proof.
  intros _ m.
  assert (Hc : combine (firstn m inputs_abi) (firstn m args_raw)
               = combine inputs_abi args_raw).
  { rewrite <- combine_firstn. apply firstn_all2.
    rewrite length_combine. apply Nat.le_refl. }
  rewrite !convert_args_comp, Hc. split; [reflexivity|]. split.
  - intros out H. split.
    + rewrite (list_comp_length _ _ _ H). apply length_combine.
    + now apply list_comp_Forall2.
  - intros H. apply list_comp_total. intros [spec raw] Hin. now apply H.
Qed.

(** C9, as the code has it. For a spec whose type starts with "uint" and
    the decimal numeral [s] of a natural number (digits only, no zero in
    front of another digit), coercion gives an int whose [str] is [s]. *)
Theorem uint_numeral_round_trip (spec : abi_input) (s : string) :
  startswith (type spec) "uint" = true ->
  nat_literal s = true ->
  exists n : Z,
    convert_args ext [spec] [s] = Ok [PInt n]
    /\ 0 <= n
    /\ val_str (PInt n) = s.
Proof.
  intros Ht Hs. exists (digits_value 0 s).
  rewrite convert_args_one, convert_arg_int
    by (unfold is_int_type; now rewrite Ht).
  unfold int_of_str. rewrite (nat_literal_int s Hs).
  destruct (nat_literal_str s Hs) as [Hstr Hpos]. auto.
Qed.

(** C5, what the code does instead. The test [t.startswith("uint")] comes
    first and also holds of "uint256[]": the whole text goes to [int()],
    the array branch is never reached, and both spellings of the array
    raise. *)
Theorem uint_array_is_read_as_one_int (nm : string) :
  let spec := {| name := nm; type := "uint256[]" |} in
  convert_args ext [spec] ["[1,2,3]"]
  = Raise (Exc ValueError "invalid literal for int() with base 10: '[1,2,3]'")
  /\ convert_args ext [spec] ["1, 2, 3"]
     = Raise (Exc ValueError "invalid literal for int() with base 10: '1, 2, 3'").
Proof. split; reflexivity. Qed.

(** The array branch itself, had it been reached, reads both spellings as
    the same integers. *)
Lemma array_branch_agrees :
  (arr <- parse_array "[1,2,3]" ;; list_comp (py_int ext) arr) = Ok [1; 2; 3]
  /\ (arr <- parse_array "1, 2, 3" ;; list_comp (py_int ext) arr) = Ok [1; 2; 3].
Proof. split; reflexivity. Qed.

(** C6, as the code has it. For an array spec [base ++ "[]"]:
    - with an integer base, a raw value one of whose comma tokens is no
      base-10 integer fails with the [ValueError] of [int()] (so
      "not-an-array" fails for "uint256[]");
    - with a base that is neither an integer type, nor "address", nor
      "string", coercion fails: with the unsupported-array-type error
      once the raw value has been read as an array (always so when it
      does not open with a bracket), and with the decoding error of the
      array literal when that cannot be read. *)
Theorem array_coercion_failures (nm base raw : string) :
  let spec := {| name := nm; type := base ++ "[]" |} in
  (is_int_type base = true ->
   forall tok, In tok (comma_tokens raw) -> int_literal tok = None ->
     convert_args ext [spec] [raw] = Raise (invalid_literal raw))
  /\ convert_args ext [ {| name := nm; type := "uint256[]" |} ] ["not-an-array"]
     = Raise (invalid_literal "not-an-array")
  /\ (is_int_type base = false -> base <> "address" -> base <> "string" ->
      (forall arr, parse_array raw = Ok arr ->
         convert_args ext [spec] [raw] = Raise (unsupported_array (base ++ "[]")))
      /\ (forall e, parse_array raw = Raise e ->
            convert_args ext [spec] [raw] = Raise e)
      /\ (startswith (strip raw) "[" = false ->
            convert_args ext [spec] [raw] = Raise (unsupported_array (base ++ "[]")))).
Proof.
  intros spec. split; [|split].
  - intros Hb tok Hin Htok.
    rewrite convert_args_one, convert_arg_int
      by (cbn [type spec]; now apply is_int_type_app).
    unfold int_of_str. destruct (int_literal raw) as [z|] eqn:Hz; [|reflexivity].
    exfalso. rewrite (int_literal_tokens raw z Hz) in Hin.
    destruct Hin as [<- | []]. rewrite int_literal_strip in Htok. congruence.
  - reflexivity.
  - intros Hb Ha Hs.
    assert (Hgo : convert_args ext [spec] [raw]
                  = (arr <- parse_array raw ;;
                     @Raise (list pyval) (unsupported_array (base ++ "[]")))).
    { rewrite convert_args_one. unfold spec. rewrite (convert_arg_array _ _ _ Hb).
      destruct (String.eqb_spec base "address"); [contradiction|].
      destruct (String.eqb_spec base "string"); [contradiction|].
      now destruct (parse_array raw). }
    split; [|split].
    + intros arr H. now rewrite Hgo, H.
    + intros e H. now rewrite Hgo, H.
    + intros H. rewrite Hgo. unfold parse_array. now rewrite H.
Qed.

End Coercion.

Lemma unequal_lengths_witness :
  convert_args plain_extern
    [ {| name := "n"; type := "uint256" |}; {| name := "ok"; type := "bool" |} ]
    ["42"]
  = convert_args plain_extern [ {| name := "n"; type := "uint256" |} ] ["42"]
  /\ convert_args plain_extern
       [ {| name := "n"; type := "uint256" |}; {| name := "ok"; type := "bool" |} ]
       ["42"]
     = Ok [PInt 42].
Proof.
  split.
  - apply (unequal_lengths_are_truncated plain_extern
             [ {| name := "n"; type := "uint256" |}; {| name := "ok"; type := "bool" |} ]
             ["42"]).
    simpl; lia.
  - reflexivity.
Defined.

(** C3 as stated fails: two specs and one raw argument differ in length,
    and coercion raises, because the one paired entry is no integer. *)
Lemma unequal_lengths_may_raise :
  List.length [ {| name := "a"; type := "uint256" |};
                {| name := "b"; type := "uint256" |} ] = 2%nat
  /\ List.length ["abc"] = 1%nat
  /\ convert_args plain_extern
       [ {| name := "a"; type := "uint256" |}; {| name := "b"; type := "uint256" |} ]
       ["abc"]
     = Raise (Exc ValueError "invalid literal for int() with base 10: 'abc'").
Proof. repeat split. Qed.

Lemma uint_numeral_round_trip_witness :
  exists n : Z,
    convert_args plain_extern [ {| name := "amount"; type := "uint256" |} ] ["1000000"]
    = Ok [PInt n]
    /\ 0 <= n
    /\ val_str (PInt n) = "1000000".
Proof.
  apply (uint_numeral_round_trip plain_extern
           {| name := "amount"; type := "uint256" |} "1000000");
    reflexivity.
Defined.

(** C9 as stated fails on texts [int()] accepts beside the plain numeral:
    zeros in front, and Python's own integer literal with underscores. *)
Lemma accepted_literals_do_not_round_trip :
  convert_args plain_extern [ {| name := "n"; type := "uint256" |} ] ["007"]
  = Ok [PInt 7]
  /\ val_str (PInt 7) = "7"
  /\ convert_args plain_extern [ {| name := "n"; type := "uint256" |} ] ["1_000"]
     = Ok [PInt 1000]
  /\ val_str (PInt 1000) = "1000".
Proof. repeat split. Qed.

(** C6 as stated fails: for the unsupported base "bool" a raw value that
    opens an array it does not close raises the decoder's error, not the
    unsupported-type one; a raw value without bracket raises the latter. *)
Lemma unsupported_base_decoding_error :
  convert_args plain_extern [ {| name := "flags"; type := "bool[]" |} ] ["[oops"]
  = Raise (Exc JSONDecodeError "Expecting value: line 1 column 2 (char 1)")
  /\ convert_args plain_extern [ {| name := "flags"; type := "bool[]" |} ] ["1,0"]
     = Raise (unsupported_array "bool[]").
Proof. split; reflexivity. Qed.

(* ================================================================== *)
(** ** The deployment log *)

Lemma filter_subsequence {A} (keep : A -> bool) (l : list A) :
  subsequence (filter keep l) l.
Proof.
  induction l as [|x l IH]; simpl; [constructor|].
  destruct (keep x); now constructor.
Qed.

(** C8. With a non-empty filter [load_records] returns exactly the stored
    records whose network starts with the filter, letter case apart, in
    stored order, and with no filter all stored records; the log is left
    as it was. *)
Theorem load_records_filters_by_prefix (st : state) (f : string) :
  f <> "" ->
  load_records (Some f) st = (Ok (filter (network_matches f) (stored st)), st)
  /\ subsequence (filter (network_matches f) (stored st)) (stored st)
  /\ (forall r, In r (filter (network_matches f) (stored st))
                <-> In r (stored st) /\ network_matches f r = true)
  /\ load_records None st = (Ok (stored st), st).
Proof.
  intros Hf. split; [|split; [|split]].
  - destruct f as [|c f]; [contradiction | reflexivity].
  - apply filter_subsequence.
  - intros r. apply filter_In.
  - reflexivity.
Qed.

(** Three appends, on "Mumbai", "Polygon" and "Mumbai" again, then the
    query for "mumbai": the two Mumbai records, in the order appended. *)
Lemma load_records_filters_by_prefix_witness :
  let st0 := {| DEPLOYMENTS_FILE := None; clock := 1700000000 |} in
  let append net addr st :=
    snd (add_record plain_extern net "SimpleStorage" (Some addr) "0x01" (PDict []) st) in
  let st3 := append "Mumbai" "0xC" (append "Polygon" "0xB" (append "Mumbai" "0xA" st0)) in
  load_records (Some "mumbai") st3
  = (Ok [record_on "Mumbai" "0xA" 1700000000; record_on "Mumbai" "0xC" 1700000000], st3).
Proof.
  intros st0 append st3.
  exact (proj1 (load_records_filters_by_prefix st3 "mumbai" ltac:(discriminate))).
Defined.

(* ================================================================== *)
(** ** The write pipeline *)

Ltac run_step H :=
  unfold call_options, priced in H;
  cbv beta iota delta [and_then lift try_except raise ret];
  rewrite H; cbv beta iota.

Ltac run_steps :=
  repeat match goal with
    | H : _ = Ok _ |- _ => run_step H; clear H
    | H : _ = Raise _ |- _ => run_step H; clear H
    end.

(** C2. When a step of the write pipeline raises [e], [deploy_contract]
    and the write path of [interact_with_contract] raise one
    [RuntimeError] whose text ends with the text of [e], and the
    deployment log is as it was before the call. *)
Theorem write_failure_is_reported (ext : extern) (p : provider) (c : contract)
  (args : list pyval) (chain_name contract_type function_name : string)
  (e : exn) (st : state) :
  (step_raises p (constructor c args) e ->
   deploy_contract ext p c args chain_name contract_type st
   = (Raise (Exc RuntimeError ("部署失败：" ++ exn_msg e)), st))
  /\ (forall func, functions c function_name = Ok func ->
      step_raises p (func args) e ->
      interact_with_contract c function_name args true p st
      = (Raise (Exc RuntimeError ("交互失败：" ++ exn_msg e)), st))
  /\ (functions c function_name = Raise e ->
      interact_with_contract c function_name args true p st
      = (Raise (Exc RuntimeError ("交互失败：" ++ exn_msg e)), st)).
Proof.
  split; [|split].
  - intros H. unfold deploy_contract.
    destruct H; run_steps; reflexivity.
  - intros func Hf H. unfold interact_with_contract.
    run_step Hf.
    destruct H; run_steps; reflexivity.
  - intros Hf. unfold interact_with_contract. run_step Hf. reflexivity.
Qed.

(** Gas estimation reverts: the deployment and the transfer are each
    reported as one [RuntimeError] with the node's message, and the log
    stays empty. *)
Lemma write_failure_is_reported_witness :
  deploy_contract plain_extern (demo_provider (Raise reverted)) demo_token
    demo_token_args "Mumbai" "DemoERC20" empty_log
  = (Raise (Exc RuntimeError "部署失败：execution reverted"), empty_log)
  /\ interact_with_contract demo_token "transfer" [PStr "0xB0B"; PInt 5] true
       (demo_provider (Raise reverted)) empty_log
     = (Raise (Exc RuntimeError "交互失败：execution reverted"), empty_log).
Proof.
  pose proof (write_failure_is_reported plain_extern (demo_provider (Raise reverted))
                demo_token demo_token_args "Mumbai" "DemoERC20" "transfer"
                reverted empty_log) as [Hdeploy _].
  pose proof (write_failure_is_reported plain_extern (demo_provider (Raise reverted))
                demo_token [PStr "0xB0B"; PInt 5] "Mumbai" "DemoERC20" "transfer"
                reverted empty_log) as [_ [Hwrite _]].
  split.
  - apply Hdeploy.
    apply (raises_estimate_gas _ _ _ demo_bound 7
             (("data", PStr "0x6080")
                :: call_options (demo_provider (Raise reverted)) 7));
      reflexivity.
  - apply (Hwrite (fun _ => Ok demo_bound)); [reflexivity|].
    apply (raises_estimate_gas _ _ _ demo_bound 7
             (("data", PStr "0x6080")
                :: call_options (demo_provider (Raise reverted)) 7));
      reflexivity.
Defined.

(** C1, what the code does instead. The keys handed to [dict()] are the
    entries of the constructor's ABI themselves, which are dicts, not
    their names. With a declared input and an argument the first key is
    unhashable: [dict()] raises [TypeError] after the transaction has
    been confirmed, [add_record] is not reached, the deployment is
    reported as failed and the log holds no record of it. *)
Theorem deploy_with_inputs_is_not_recorded (ext : extern) (p : provider)
  (c : contract) (args : list pyval) (chain_name contract_type : string)
  (st : state) (h : list byte) (r : receipt)
  (spec : abi_input) (specs : list abi_input) (a : pyval) (rest : list pyval) :
  confirmed p (constructor c args) h r ->
  constructor_abi c = spec :: specs ->
  args = a :: rest ->
  deploy_contract ext p c args chain_name contract_type st
  = (Raise (Exc RuntimeError "部署失败：unhashable type: 'dict'"), st).
Proof.
  intros (b & nonce & tx & gas & price & Hb & Hn & Htx & Hg & Hp & Hs & Hw) Hc Ha.
  unfold deploy_contract. run_steps.
  rewrite Hc. subst args. reflexivity.
Qed.

Lemma deploy_with_inputs_is_not_recorded_witness :
  deploy_contract plain_extern (demo_provider (Ok 21000)) demo_token
    demo_token_args "Mumbai" "DemoERC20" empty_log
  = (Raise (Exc RuntimeError "部署失败：unhashable type: 'dict'"), empty_log).
Proof.
  apply (deploy_with_inputs_is_not_recorded plain_extern (demo_provider (Ok 21000))
           demo_token demo_token_args "Mumbai" "DemoERC20" empty_log
           [x0a; xbc]
           {| transactionHash := [x0a; xbc]; blockNumber := 12; gasUsed := 21000;
              contractAddress := Some "0xC0FFEE" |}
           {| name := "name_"; type := "string" |}
           [ {| name := "symbol_"; type := "string" |};
             {| name := "initialSupply"; type := "uint256" |} ]
           (PStr "Demo Token") [PStr "DEMO"; PInt 1000000000000000000000000]).
  - exists demo_bound, 7,
      (("data", PStr "0x6080") :: call_options (demo_provider (Ok 21000)) 7),
      21000, 30.
    repeat split.
  - reflexivity.
  - reflexivity.
Defined.

(** The sibling case: no declared input and no argument. The record is
    appended, once, with an empty [constructor_args]. *)
Lemma deploy_without_inputs_is_recorded (ext : extern) (p : provider)
  (c : contract) (chain_name contract_type : string)
  (st : state) (h : list byte) (r : receipt) (addr : string) :
  confirmed p (constructor c []) h r ->
  to_checksum_address ext
    (match contractAddress r with Some a => JStr a | None => JNull end) = Ok addr ->
  deploy_contract ext p c [] chain_name contract_type st
  = (Ok r,
     {| DEPLOYMENTS_FILE :=
          Some (stored st ++
                [ {| time := clock st; network := chain_name;
                     contract_type := contract_type; address := addr;
                     tx_hash := hexbytes_hex h; constructor_args := PDict [] |} ])%list;
        clock := clock st |}).
Proof.
  intros (b & nonce & tx & gas & price & Hb & Hn & Htx & Hg & Hp & Hs & Hw) Ha.
  unfold deploy_contract. run_steps.
  rewrite combine_nil. cbn [py_dict for_each bind].
  unfold add_record, read_json, write_json.
  cbv beta iota delta [and_then lift try_except raise ret].
  rewrite Ha. reflexivity.
Qed.

(* ================================================================== *)
(** ** Result normalisation *)

(** Induction over a value, its items and its dict values included. *)
Lemma pyval_induction (P : pyval -> Prop) :
  P PNone ->
  (forall b, P (PBool b)) ->
  (forall z, P (PInt z)) ->
  (forall s, P (PStr s)) ->
  (forall bs, P (PBytes bs)) ->
  (forall bs, P (PHexBytes bs)) ->
  (forall l, Forall P l -> P (PList l)) ->
  (forall l, Forall P l -> P (PTuple l)) ->
  (forall d, Forall (fun kv => P (snd kv)) d -> P (PDict d)) ->
  forall v, P v.
Proof.
  intros HN HB HI HS HY HH HL HT HD.
  fix IH 1. intros [ | b | z | s | bs | bs | l | l | d].
  - exact HN.
  - apply HB.
  - apply HI.
  - apply HS.
  - apply HY.
  - apply HH.
  - apply HL. induction l as [|x l IHl]; constructor; [apply IH | exact IHl].
  - apply HT. induction l as [|x l IHl]; constructor; [apply IH | exact IHl].
  - apply HD. induction d as [|[k x] d IHd]; constructor; [apply IH | exact IHd].
Qed.

Lemma setitem_absent k v d :
  absent k (map fst d) = true -> dict_setitem k v d = (d ++ [(k, v)])%list.
Proof.
  induction d as [|[k' v'] d IH]; simpl; [reflexivity|].
  intros [Hk Hd]%andb_prop. apply negb_true_iff in Hk. rewrite Hk.
  now rewrite (IH Hd).
Qed.

Lemma setitem_keys k v d :
  map fst (dict_setitem k v d)
  = if absent k (map fst d) then (map fst d ++ [k])%list else map fst d.
Proof.
  induction d as [|[k' v'] d IH]; simpl; [reflexivity|].
  destruct (key_eqb k' k) eqn:Hk; simpl; [reflexivity|].
  rewrite IH. now destruct (absent k (map fst d)).
Qed.

Lemma distinct_snoc ks k :
  distinct (ks ++ [k]) = distinct ks && absent k ks.
Proof.
  induction ks as [|k' ks IH]; simpl; [reflexivity|].
  rewrite forallb_app, IH. simpl.
  destruct (forallb _ ks), (key_eqb k' k), (distinct ks); reflexivity.
Qed.

Lemma distinct_app_head ks k ks' :
  distinct (ks ++ k :: ks') = true -> absent k ks = true.
Proof.
  induction ks as [|k' ks IH]; simpl; [reflexivity|].
  rewrite forallb_app. simpl.
  intros [[_ [H _]%andb_prop]%andb_prop Hd]%andb_prop.
  now rewrite H, (IH Hd).
Qed.

Lemma setitem_distinct k v d :
  distinct (map fst d) = true -> distinct (map fst (dict_setitem k v d)) = true.
Proof.
  intros H. rewrite setitem_keys.
  destruct (absent k (map fst d)) eqn:Hk; [|assumption].
  now rewrite distinct_snoc, H, Hk.
Qed.

(** Over distinct keys the comprehension is a map over the values. *)
Lemma dict_comp_distinct f d : forall acc,
  distinct (map fst acc ++ map fst d) = true ->
  dict_comp f d acc = (acc ++ map (fun kv => (fst kv, f (snd kv))) d)%list.
Proof.
  unfold dict_comp.
  induction d as [|[k v] d IH]; intros acc H; simpl.
  - now rewrite List.app_nil_r.
  - rewrite setitem_absent by (eapply distinct_app_head; exact H).
    rewrite IH.
    + now rewrite <- List.app_assoc.
    + rewrite map_app. simpl. now rewrite <- List.app_assoc.
Qed.

(** Whatever the keys, the comprehension gives distinct keys, and values
    that are images under [f] or were in [acc] before. *)
Lemma dict_comp_invariant f (Q : pyval -> Prop) d : forall acc,
  distinct (map fst acc) = true ->
  Forall (fun kv => Q (snd kv)) acc ->
  Forall (fun kv => Q (f (snd kv))) d ->
  distinct (map fst (dict_comp f d acc)) = true
  /\ Forall (fun kv => Q (snd kv)) (dict_comp f d acc).
Proof.
  unfold dict_comp.
  induction d as [|[k v] d IH]; intros acc Hd Hq Hf; simpl; [auto|].
  inversion Hf as [|? ? Hv Hf']; subst. apply IH; [now apply setitem_distinct | | exact Hf'].
  clear - Hq Hv. induction acc as [|[k' v'] acc IHa]; simpl.
  - repeat constructor. exact Hv.
  - inversion Hq as [|? ? Hq1 Hq2]; subst.
    destruct (key_eqb k' k); constructor; simpl; auto.
Qed.

Lemma decode_dict d :
  decode_hexbytes (PDict d) = PDict (dict_comp decode_hexbytes d []).
Proof. reflexivity. Qed.

(** On a well-formed value the code computes the normal form. *)
Lemma decode_is_normalize v : well_formed v = true -> decode_hexbytes v = normalize v.
Proof.
  induction v as [ | | | | | | l IH | l IH | d IH] using pyval_induction;
    try reflexivity; intros Hw.
  - simpl in *. f_equal. apply map_ext_in. intros x Hx.
    rewrite Forall_forall in IH. apply IH; [assumption|].
    rewrite forallb_forall in Hw. now apply Hw.
  - simpl in *. f_equal. apply map_ext_in. intros x Hx.
    rewrite Forall_forall in IH. apply IH; [assumption|].
    rewrite forallb_forall in Hw. now apply Hw.
  - rewrite decode_dict. cbn [well_formed] in Hw. apply andb_prop in Hw as [Hd Hv].
    rewrite dict_comp_distinct by exact Hd. simpl. f_equal.
    apply map_ext_in. intros [k x] Hx. simpl. f_equal.
    rewrite Forall_forall in IH. apply (IH (k, x) Hx).
    rewrite forallb_forall in Hv. now apply (Hv (k, x)).
Qed.

Lemma pretty_result_dumps res :
  pretty_result res
  = match json_dumps (decode_hexbytes res) with
    | Ok text => text
    | Raise _ => val_str res
    end.
Proof. now destruct res. Qed.

(** C7, as the code has it. On every call result (scalars, [bytes],
    [HexBytes], lists, tuples and dicts with distinct keys)
    [decode_hexbytes] computes the normal form: each [HexBytes] item or
    dict value becomes its "0x" hexadecimal text, lists and tuples are
    normalised item by item in order (a tuple comes back as a list), a
    dict keeps its keys and their order with its values normalised,
    numbers, strings, booleans, [None] and plain [bytes] are unchanged.
    [pretty_result] prints that normal form as JSON and, when it cannot
    be serialised, returns [str(res)] of the whole value instead of
    raising. *)
Theorem results_are_normalized (res : pyval) :
  well_formed res = true ->
  decode_hexbytes res = normalize res
  /\ (forall text, json_dumps (normalize res) = Ok text -> pretty_result res = text)
  /\ (forall e, json_dumps (normalize res) = Raise e -> pretty_result res = val_str res).
Proof.
  intros Hw. rewrite pretty_result_dumps, (decode_is_normalize res Hw).
  split; [reflexivity|]. split; intros x H; now rewrite H.
Qed.

(** The bytes de ad be ef inside a tuple and inside a dict come out as
    "0xdeadbeef" where they stood; a dict keyed by a tuple cannot be
    written as JSON, and is printed by [str]. *)
Lemma results_are_normalized_witness :
  decode_hexbytes
    (PTuple [PInt 1; PHexBytes deadbeef;
             PDict [(KStr "hash", PHexBytes deadbeef); (KStr "ok", PBool true)]])
  = PList [PInt 1; PStr "0xdeadbeef";
           PDict [(KStr "hash", PStr "0xdeadbeef"); (KStr "ok", PBool true)]]
  /\ pretty_result (PDict [(KTuple [KInt 1; KInt 2], PHexBytes deadbeef)])
     = "{(1, 2): HexBytes('0xdeadbeef')}".
Proof.
  split.
  - apply (results_are_normalized
             (PTuple [PInt 1; PHexBytes deadbeef;
                      PDict [(KStr "hash", PHexBytes deadbeef); (KStr "ok", PBool true)]])).
    reflexivity.
  - apply (proj2 (proj2 (results_are_normalized
                           (PDict [(KTuple [KInt 1; KInt 2], PHexBytes deadbeef)])
                           eq_refl))
             (Exc TypeError "keys must be str, int, float, bool or None, not tuple")).
    reflexivity.
Defined.

(** C7 as stated fails on a byte string that is not a [HexBytes]: a
    plain [bytes] item is returned as it is, and printed through [str]. *)
Lemma plain_bytes_are_not_rewritten :
  decode_hexbytes (PList [PInt 1; PBytes deadbeef]) = PList [PInt 1; PBytes deadbeef]
  /\ pretty_result (PList [PInt 1; PBytes deadbeef])
     = "[" ++ newline_indent 1 ++ "1," ++ newline_indent 1
         ++ quote ++ "b'\\xde\\xad\\xbe\\xef'" ++ quote
         ++ newline_indent 0 ++ "]".
Proof. split; reflexivity. Qed.

(** C10, as the code has it. [decode_hexbytes] applied twice gives what
    it gives applied once, and its result has no [HexBytes] among its
    items and dict values, at any depth. *)
Theorem decode_hexbytes_idempotent (v : pyval) :
  decode_hexbytes (decode_hexbytes v) = decode_hexbytes v
  /\ no_hexbytes (decode_hexbytes v) = true.
Proof.
  induction v as [ | | | | | | l IH | l IH | d IH] using pyval_induction;
    try (split; reflexivity).
  - simpl. split.
    + f_equal. rewrite map_map. apply map_ext_in. intros x Hx.
      rewrite Forall_forall in IH. now apply IH.
    + rewrite forallb_forall. intros y [x [<- Hx]]%in_map_iff.
      rewrite Forall_forall in IH. now apply IH.
  - simpl. split.
    + f_equal. rewrite map_map. apply map_ext_in. intros x Hx.
      rewrite Forall_forall in IH. now apply IH.
    + rewrite forallb_forall. intros y [x [<- Hx]]%in_map_iff.
      rewrite Forall_forall in IH. now apply IH.
  - rewrite !decode_dict.
    destruct (dict_comp_invariant decode_hexbytes
                (fun x => decode_hexbytes x = x /\ no_hexbytes x = true) d [])
      as [Hd Hq]; [reflexivity | constructor | exact IH |].
    split.
    + f_equal.
      rewrite dict_comp_distinct by exact Hd. simpl.
      rewrite <- (map_id (dict_comp decode_hexbytes d [])) at 2.
      apply map_ext_in. intros [k x] Hx. simpl.
      rewrite Forall_forall in Hq. f_equal. exact (proj1 (Hq (k, x) Hx)).
    + cbn [no_hexbytes]. rewrite forallb_forall. intros [k x] Hx.
      rewrite Forall_forall in Hq. exact (proj2 (Hq (k, x) Hx)).
Qed.

(** C10 as stated fails on a byte string that is not a [HexBytes]: the
    result of [decode_hexbytes] still holds the plain [bytes] item. *)
Lemma decoded_value_may_hold_bytes :
  decode_hexbytes (PTuple [PHexBytes deadbeef; PBytes deadbeef])
  = PList [PStr "0xdeadbeef"; PBytes deadbeef]
  /\ no_byte_strings (decode_hexbytes (PTuple [PHexBytes deadbeef; PBytes deadbeef]))
     = false.
Proof. split; reflexivity. Qed.

(* ================================================================== *)
(** * More properties of the module *)

(** ** Integers read back *)

Lemma str_uint_literal (d : Decimal.uint) :
  d <> Decimal.Nil ->
  int_digits false 0 (NilEmpty.string_of_uint d) = Some (Z.of_uint d)
  /\ strip (NilEmpty.string_of_uint d) = NilEmpty.string_of_uint d
  /\ rstrip (NilEmpty.string_of_uint d) = NilEmpty.string_of_uint d.
Proof.
  intros Hd. pose proof (uint_all_digits d) as Ha.
  assert (Hn : NilEmpty.string_of_uint d <> "") by (destruct d; simpl; congruence).
  split; [|split].
  - rewrite int_digits_all_digits by auto.
    now rewrite digits_value_uint, of_uint_value.
  - now apply all_digits_strip.
  - now apply all_digits_rstrip.
Qed.

Lemma pos_to_uint_nonnil (p : positive) : Pos.to_uint p <> Decimal.Nil.
Proof.
  intros E. pose proof (DecimalPos.Unsigned.of_to p) as H.
  rewrite E in H. discriminate H.
Qed.

Lemma pos_uint_value (p : positive) : Z.of_uint (Pos.to_uint p) = Z.pos p.
Proof. unfold Z.of_uint. now rewrite DecimalPos.Unsigned.of_to. Qed.

Lemma head_digit_not_sign (d : Decimal.uint) c s :
  NilEmpty.string_of_uint d = String c s ->
  Ascii.eqb c "+" = false /\ Ascii.eqb c "-" = false.
Proof. destruct d; simpl; intros [= <- _]; split; reflexivity. Qed.

(** [int(str(z))] is [z]. *)
Lemma int_literal_str_int (z : Z) : int_literal (str_int z) = Some z.
Proof.
  destruct z as [|p|p]; [reflexivity | |].
  - unfold str_int. cbn [Z.to_int NilZero.string_of_int].
    pose proof (pos_to_uint_nonnil p) as Hd.
    replace (NilZero.string_of_uint (Pos.to_uint p))
      with (NilEmpty.string_of_uint (Pos.to_uint p))
      by (destruct (Pos.to_uint p); [contradiction | reflexivity..]).
    destruct (str_uint_literal _ Hd) as (Hv & Hs & _).
    unfold int_literal. rewrite Hs.
    destruct (NilEmpty.string_of_uint (Pos.to_uint p)) as [|c s] eqn:E;
      [discriminate|].
    destruct (head_digit_not_sign _ _ _ E) as [-> ->].
    now rewrite Hv, pos_uint_value.
  - unfold str_int. cbn [Z.to_int NilZero.string_of_int].
    pose proof (pos_to_uint_nonnil p) as Hd.
    replace (NilZero.string_of_uint (Pos.to_uint p))
      with (NilEmpty.string_of_uint (Pos.to_uint p))
      by (destruct (Pos.to_uint p); [contradiction | reflexivity..]).
    destruct (str_uint_literal _ Hd) as (Hv & _ & Hr).
    unfold int_literal, strip. cbn [append lstrip].
    change (is_space "-") with false. cbn iota.
    cbn [rstrip]. rewrite Hr.
    destruct (NilEmpty.string_of_uint (Pos.to_uint p)) as [|c s] eqn:E;
      [discriminate|].
    change (Ascii.eqb "-" "+") with false. change (Ascii.eqb "-" "-") with true.
    cbn iota. rewrite Hv, pos_uint_value. reflexivity.
Qed.

Section MoreCoercion.

Variable ext : extern.

(** X1. An integer type tag (any tag that starts with "uint" or "int")
    takes the decimal text of every integer, negative ones and ones
    beyond the declared width included, and gives that integer back: no
    sign or range is checked. *)
Theorem integer_text_is_read_back (spec : abi_input) (z : Z) :
  is_int_type (type spec) = true ->
  convert_args ext [spec] [str_int z] = Ok [PInt z].
Proof.
  intros Ht. rewrite convert_args_one, (convert_arg_int ext spec _ Ht).
  unfold int_of_str. now rewrite int_literal_str_int.
Qed.

(** X2. The entries are coerced from left to right and the first one that
    fails decides: its error is the error of [convert_args], whatever
    comes after it. *)
Theorem first_failing_entry_decides
  (inputs_abi : list abi_input) (args_raw : list string)
  (before after : list (abi_input * string)) (spec : abi_input) (raw : string)
  (e : exn) :
  combine inputs_abi args_raw = (before ++ (spec, raw) :: after)%list ->
  (forall s r, In (s, r) before -> exists v, convert_arg ext s r = Ok v) ->
  convert_arg ext spec raw = Raise e ->
  convert_args ext inputs_abi args_raw = Raise e.
Proof.
  intros Hc Hb He. rewrite convert_args_comp, Hc. clear Hc.
  induction before as [|[s r] before IH]; simpl.
  - now rewrite He.
  - destruct (Hb s r (or_introl eq_refl)) as [v ->]. simpl.
    rewrite IH; [reflexivity|]. intros s' r' H. apply Hb. now right.
Qed.

Lemma split_pieces_no_sep sep s :
  Forall (fun x => contains_char sep x = false) (split sep s).
Proof.
  induction s as [|c s IH]; simpl; [repeat constructor|].
  destruct (Ascii.eqb_spec c sep) as [-> | Hc].
  - constructor; [reflexivity | exact IH].
  - destruct (split sep s) as [|piece rest]; [repeat constructor; simpl|].
    + destruct (Ascii.eqb_spec sep c); [congruence | reflexivity].
    + inversion IH as [|? ? Hp Hr]; subst. constructor; [|exact Hr].
      simpl. rewrite Hp. destruct (Ascii.eqb_spec sep c); [congruence | reflexivity].
Qed.

Lemma comma_tokens_trimmed raw :
  Forall (fun t => t <> "" /\ strip t = t /\ contains_char "," t = false)
    (comma_tokens raw).
Proof.
  unfold comma_tokens. rewrite Forall_forall. intros t [x [<- Hx]]%in_map_iff.
  apply filter_In in Hx as [Hin Hne].
  pose proof (split_pieces_no_sep "," raw) as Hs. rewrite Forall_forall in Hs.
  split; [|split].
  - destruct (String.eqb_spec (strip x) ""); [discriminate | assumption].
  - apply strip_idem.
  - rewrite contains_strip by reflexivity. now apply Hs.
Qed.

(** X3. For a "string[]" spec a raw value that does not open with a
    bracket coerces, without fail, to the list of its comma-separated
    pieces, each trimmed, the blank ones dropped: no item of the result
    is empty, has a blank at either end or holds a comma. *)
Theorem string_array_from_commas (nm raw : string) :
  startswith (strip raw) "[" = false ->
  convert_args ext [ {| name := nm; type := "string[]" |} ] [raw]
  = Ok [PList (map PStr (comma_tokens raw))]
  /\ Forall (fun t => t <> "" /\ strip t = t /\ contains_char "," t = false)
       (comma_tokens raw).
Proof.
  intros Hraw. split; [|apply comma_tokens_trimmed].
  rewrite convert_args_one.
  change "string[]" with ("string" ++ "[]").
  rewrite (convert_arg_array ext nm "string" raw eq_refl).
  unfold parse_array. rewrite Hraw. simpl. now rewrite map_map.
Qed.

End MoreCoercion.

Lemma integer_text_is_read_back_witness :
  convert_args plain_extern [ {| name := "small"; type := "uint8" |} ] ["-300"]
  = Ok [PInt (-300)].
Proof.
  exact (integer_text_is_read_back plain_extern
           {| name := "small"; type := "uint8" |} (-300) eq_refl).
Defined.

Lemma first_failing_entry_decides_witness :
  convert_args plain_extern
    [ {| name := "ok"; type := "bool" |};
      {| name := "n"; type := "uint256" |};
      {| name := "m"; type := "uint256" |} ]
    ["yes"; "x"; "y"]
  = Raise (invalid_literal "x").
Proof.
  apply (first_failing_entry_decides plain_extern _ _
           [ ({| name := "ok"; type := "bool" |}, "yes") ]
           [ ({| name := "m"; type := "uint256" |}, "y") ]
           {| name := "n"; type := "uint256" |} "x").
  - reflexivity.
  - intros s r [[= <- <-] | []]. now exists (PBool true).
  - reflexivity.
Defined.

Lemma string_array_from_commas_witness :
  convert_args plain_extern [ {| name := "tags"; type := "string[]" |} ]
    [" a , ,b c,, d"]
  = Ok [PList [PStr "a"; PStr "b c"; PStr "d"]].
Proof.
  exact (proj1 (string_array_from_commas plain_extern "tags" " a , ,b c,, d" eq_refl)).
Defined.

(* ------------------------------------------------------------------ *)
(** ** [safe_int_input] *)


(* ------------------------------------------------------------------ *)
(** ** More on the deployment log *)

Lemma or_empty_some {A} (l : list A) : or_empty (Some l) = l.
Proof. now destruct l. Qed.


Lemma startswith_prefix s p x : startswith s (p ++ x) = true -> startswith s p = true.
Proof.
  revert s; induction p as [|c p IH]; intros s; simpl; [reflexivity|].
  destruct s as [|d s]; [discriminate|].
  intros [-> H]%andb_prop. now apply IH.
Qed.

Lemma lower_app s x : lower (s ++ x) = lower s ++ lower x.
Proof. induction s; simpl; [reflexivity | now f_equal]. Qed.

Lemma add_record_ok ext net ctype a hash cargs st addr :
  to_checksum_address ext (address_value a) = Ok addr ->
  add_record ext net ctype a hash cargs st
  = (Ok tt, {| DEPLOYMENTS_FILE :=
                 Some (stored st ++ [new_record st net ctype addr hash cargs])%list;
               clock := clock st |}).
Proof.
  intros H. unfold add_record, read_json, write_json, address_value in *.
  cbv beta iota delta [and_then lift]. now rewrite H.
Qed.



(** X7. A longer filter selects less: the records listed for a filter are
    among those listed, in the same order, for any text the filter
    starts with. *)
Theorem longer_filter_selects_less (st : state) (f more : string) :
  f <> "" ->
  exists short long,
    load_records (Some f) st = (Ok short, st)
    /\ load_records (Some (f ++ more)) st = (Ok long, st)
    /\ subsequence long short
    /\ long = filter (network_matches (f ++ more)) short.
Proof.
  intros Hf. destruct f as [|c f]; [contradiction|].
  exists (filter (network_matches (String c f)) (stored st)),
         (filter (network_matches (String c f ++ more)) (stored st)).
  split; [reflexivity|]. split; [reflexivity|].
  assert (E : filter (network_matches (String c f ++ more)) (stored st)
              = filter (network_matches (String c f ++ more))
                  (filter (network_matches (String c f)) (stored st))).
  { induction (stored st) as [|r l IH]; [reflexivity|]. cbn [filter].
    destruct (network_matches (String c f ++ more) r) eqn:Hl.
    - assert (Hs : network_matches (String c f) r = true).
      { unfold network_matches in *. rewrite lower_app in Hl.
        exact (startswith_prefix _ _ _ Hl). }
      rewrite Hs. cbn [filter]. rewrite Hl. now f_equal.
    - destruct (network_matches (String c f) r); [cbn [filter]; rewrite Hl|];
        exact IH. }
  split; [|exact E].
  rewrite E. apply filter_subsequence.
Qed.



Lemma longer_filter_selects_less_witness :
  exists short long,
    load_records (Some "m")
      {| DEPLOYMENTS_FILE :=
           Some [record_on "Mumbai" "0xA" 1; record_on "Mainnet" "0xB" 2];
         clock := 3 |}
    = (Ok short,
       {| DEPLOYMENTS_FILE :=
            Some [record_on "Mumbai" "0xA" 1; record_on "Mainnet" "0xB" 2];
          clock := 3 |})
    /\ load_records (Some ("m" ++ "um"))
         {| DEPLOYMENTS_FILE :=
              Some [record_on "Mumbai" "0xA" 1; record_on "Mainnet" "0xB" 2];
            clock := 3 |}
       = (Ok long,
          {| DEPLOYMENTS_FILE :=
               Some [record_on "Mumbai" "0xA" 1; record_on "Mainnet" "0xB" 2];
             clock := 3 |})
    /\ subsequence long short
    /\ long = filter (network_matches ("m" ++ "um")) short.
Proof.
  apply (longer_filter_selects_less
           {| DEPLOYMENTS_FILE :=
                Some [record_on "Mumbai" "0xA" 1; record_on "Mainnet" "0xB" 2];
              clock := 3 |} "m" "um").
  discriminate.
Defined.

(* ------------------------------------------------------------------ *)
(** ** More on the write pipeline *)

(** X8. A read needs no signer and costs no state: the outcome of
    [interact_with_contract] with [is_write] false is the same for every
    provider, it is the value the call returns or one [RuntimeError]
    with the text of the error raised by the lookup, the binding or the
    call, and the log is as it was. *)
Theorem read_needs_no_provider (c : contract) (function_name : string)
  (args : list pyval) (p q : provider) (st : state) :
  interact_with_contract c function_name args false p st
  = interact_with_contract c function_name args false q st
  /\ snd (interact_with_contract c function_name args false p st) = st
  /\ (forall func bound value,
        functions c function_name = Ok func -> func args = Ok bound ->
        call bound = Ok value ->
        interact_with_contract c function_name args false p st = (Ok (inr value), st))
  /\ (forall e,
        (functions c function_name = Raise e
         \/ (exists func, functions c function_name = Ok func
               /\ (func args = Raise e
                   \/ exists bound, func args = Ok bound /\ call bound = Raise e))) ->
        interact_with_contract c function_name args false p st
        = (Raise (Exc RuntimeError ("交互失败：" ++ exn_msg e)), st)).
Proof.
  unfold interact_with_contract.
  cbv beta iota delta [and_then lift try_except raise ret].
  split; [reflexivity|]. split; [|split].
  - destruct (functions c function_name) as [func|e]; [|reflexivity].
    destruct (func args) as [bound|e]; [|reflexivity].
    destruct (call bound); reflexivity.
  - intros func bound value -> -> ->. reflexivity.
  - intros e [-> | (func & -> & [-> | (bound & -> & ->)])]; reflexivity.
Qed.

(** X9. A confirmed write returns the receipt of its transaction and
    leaves the deployment log as it was: only [deploy_contract] records. *)
Theorem confirmed_write_returns_receipt (c : contract) (function_name : string)
  (args : list pyval) (p : provider) (st : state)
  (func : list pyval -> result bound_call) (h : list byte) (r : receipt) :
  functions c function_name = Ok func ->
  confirmed p (func args) h r ->
  interact_with_contract c function_name args true p st = (Ok (inl r), st).
Proof.
  intros Hf (b & nonce & tx & gas & price & Hb & Hn & Htx & Hg & Hp & Hs & Hw).
  unfold interact_with_contract. run_step Hf. run_steps. reflexivity.
Qed.

Lemma confirmed_write_returns_receipt_witness :
  interact_with_contract demo_token "transfer" [PStr "0xB0B"; PInt 5] true
    (demo_provider (Ok 21000)) empty_log
  = (Ok (inl {| transactionHash := [x0a; xbc]; blockNumber := 12; gasUsed := 21000;
               contractAddress := Some "0xC0FFEE" |}),
     empty_log).
Proof.
  apply (confirmed_write_returns_receipt demo_token "transfer"
           [PStr "0xB0B"; PInt 5] (demo_provider (Ok 21000)) empty_log
           (fun _ => Ok demo_bound) [x0a; xbc]).
  - reflexivity.
  - exists demo_bound, 7,
      (("data", PStr "0x6080") :: call_options (demo_provider (Ok 21000)) 7),
      21000, 30.
    repeat split.
Defined.

(** X10. A confirmed deployment without constructor arguments is
    recorded once: the log gains one record, last, with the chain name,
    the contract type, the checksum form of the receipt's contract
    address, the "0x" text of the transaction hash and an empty
    [constructor_args], and the receipt is returned. When the address has
    no checksum form the deployment is reported as failed although its
    transaction was confirmed, and nothing is recorded. *)
Theorem deploy_without_arguments_records_once (ext : extern) (p : provider)
  (c : contract) (chain_name contract_type : string)
  (st : state) (h : list byte) (r : receipt) :
  confirmed p (constructor c []) h r ->
  (forall addr,
     to_checksum_address ext (address_value (contractAddress r)) = Ok addr ->
     exists st',
       deploy_contract ext p c [] chain_name contract_type st = (Ok r, st')
       /\ stored st'
          = (stored st
               ++ [new_record st chain_name contract_type addr (hexbytes_hex h)
                     (PDict [])])%list)
  /\ (forall e,
        to_checksum_address ext (address_value (contractAddress r)) = Raise e ->
        deploy_contract ext p c [] chain_name contract_type st
        = (Raise (Exc RuntimeError ("部署失败：" ++ exn_msg e)), st)).
Proof.
  intros (b & nonce & tx & gas & price & Hb & Hn & Htx & Hg & Hp & Hs & Hw).
  split.
  - intros addr Ha. eexists. split.
    + unfold deploy_contract. run_steps.
      rewrite combine_nil. cbn [py_dict for_each bind].
      rewrite (add_record_ok _ _ _ _ _ _ _ _ Ha). reflexivity.
    + unfold stored at 1. cbn [DEPLOYMENTS_FILE]. apply or_empty_some.
  - intros e Ha. unfold deploy_contract. run_steps.
    rewrite combine_nil. cbn [py_dict for_each bind].
    unfold add_record, read_json, address_value in *.
    cbv beta iota delta [and_then lift try_except raise ret].
    rewrite Ha. reflexivity.
Qed.

Lemma deploy_without_arguments_records_once_witness :
  exists st',
    deploy_contract plain_extern (demo_provider (Ok 21000)) storage_contract []
      "Mumbai" "SimpleStorage" empty_log
    = (Ok {| transactionHash := [x0a; xbc]; blockNumber := 12; gasUsed := 21000;
             contractAddress := Some "0xC0FFEE" |}, st')
    /\ stored st'
       = (stored empty_log
            ++ [new_record empty_log "Mumbai" "SimpleStorage" "0xC0FFEE" "0x0abc"
                  (PDict [])])%list.
Proof.
  apply (proj1 (deploy_without_arguments_records_once plain_extern
                  (demo_provider (Ok 21000)) storage_contract
                  "Mumbai" "SimpleStorage" empty_log [x0a; xbc]
                  {| transactionHash := [x0a; xbc]; blockNumber := 12;
                     gasUsed := 21000; contractAddress := Some "0xC0FFEE" |}
                  ltac:(exists demo_bound, 7,
                          (("data", PStr "0x6080")
                             :: call_options (demo_provider (Ok 21000)) 7),
                          21000, 30; repeat split))
           "0xC0FFEE").
  reflexivity.
Defined.

(* ------------------------------------------------------------------ *)
(** ** More on result normalisation and printing *)

Lemma list_comp_cases {A B} (f : A -> result B) (ok : A -> bool) (Q : exn -> Prop)
  (l : list A) :
  Forall (fun x => if ok x then exists y, f x = Ok y
                   else exists e, f x = Raise e /\ Q e) l ->
  if forallb ok l then exists out, list_comp f l = Ok out
  else exists e, list_comp f l = Raise e /\ Q e.
Proof.
  induction 1 as [|x l Hx Hl IH]; simpl; [now exists []|].
  destruct (ok x); simpl.
  - destruct Hx as [y ->]; simpl.
    destruct (forallb ok l).
    + destruct IH as [ys ->]. now exists (y :: ys).
    + destruct IH as [e [-> He]]. now exists e.
  - destruct Hx as [e [-> He]]. now exists e.
Qed.

(** [json.dumps] with [default=str] writes a value exactly when every
    dict key in it is a str, an int, a bool or [None]; what it raises
    otherwise is the [TypeError] of the key. *)
Lemma iterencode_cases v : forall level,
  if keys_encodable v then exists text, iterencode level v = Ok text
  else exists e, iterencode level v = Raise e /\ exn_cls e = TypeError.
Proof.
  induction v as [ | | | | | | l IH | l IH | d IH] using pyval_induction;
    intros level; try (simpl; eauto; fail).
  - destruct l as [|x l]; [simpl; eauto|].
    change (keys_encodable (PList (x :: l))) with (forallb keys_encodable (x :: l)).
    change (iterencode level (PList (x :: l)))
      with (items <- list_comp (iterencode (S level)) (x :: l) ;;
            Ok (bracketed "[" "]" level items)).
    pose proof (list_comp_cases (iterencode (S level)) keys_encodable
                  (fun e => exn_cls e = TypeError) (x :: l)) as H.
    destruct (forallb keys_encodable (x :: l)).
    + destruct H as [out ->]; [|simpl; eauto].
      eapply Forall_impl; [|exact IH]. intros a Ha. apply Ha.
    + destruct H as [e [-> He]]; [|simpl; eauto].
      eapply Forall_impl; [|exact IH]. intros a Ha. apply Ha.
  - destruct l as [|x l]; [simpl; eauto|].
    change (keys_encodable (PTuple (x :: l))) with (forallb keys_encodable (x :: l)).
    change (iterencode level (PTuple (x :: l)))
      with (items <- list_comp (iterencode (S level)) (x :: l) ;;
            Ok (bracketed "[" "]" level items)).
    pose proof (list_comp_cases (iterencode (S level)) keys_encodable
                  (fun e => exn_cls e = TypeError) (x :: l)) as H.
    destruct (forallb keys_encodable (x :: l)).
    + destruct H as [out ->]; [|simpl; eauto].
      eapply Forall_impl; [|exact IH]. intros a Ha. apply Ha.
    + destruct H as [e [-> He]]; [|simpl; eauto].
      eapply Forall_impl; [|exact IH]. intros a Ha. apply Ha.
  - destruct d as [|x d]; [simpl; eauto|].
    change (keys_encodable (PDict (x :: d)))
      with (forallb (fun kv : pykey * pyval =>
                       key_encodable (fst kv) && keys_encodable (snd kv)) (x :: d)).
    change (iterencode level (PDict (x :: d)))
      with (items <- list_comp
                       (fun kv : pykey * pyval =>
                          let (k, v) := kv in
                          ks <- encode_key k ;;
                          vs <- iterencode (S level) v ;;
                          Ok (encode_str ks ++ ": " ++ vs))
                       (x :: d) ;;
            Ok (bracketed "{" "}" level items)).
    match goal with
    | |- context [list_comp ?f (x :: d)] =>
        pose proof (list_comp_cases f
                      (fun kv : pykey * pyval =>
                         key_encodable (fst kv) && keys_encodable (snd kv))
                      (fun e => exn_cls e = TypeError) (x :: d)) as H
    end.
    assert (Hall : Forall
              (fun kv : pykey * pyval =>
                 if key_encodable (fst kv) && keys_encodable (snd kv)
                 then exists y,
                     (let (k, v) := kv in
                      ks <- encode_key k ;;
                      vs <- iterencode (S level) v ;;
                      Ok (encode_str ks ++ ": " ++ vs)) = Ok y
                 else exists e,
                     (let (k, v) := kv in
                      ks <- encode_key k ;;
                      vs <- iterencode (S level) v ;;
                      Ok (encode_str ks ++ ": " ++ vs)) = Raise e
                     /\ exn_cls e = TypeError) (x :: d)).
    { eapply Forall_impl; [|exact IH]. intros [k v] Hv. simpl in Hv |- *.
      specialize (Hv (S level)).
      destruct k; simpl; try (eexists; split; reflexivity);
        (destruct (keys_encodable v);
         [destruct Hv as [t ->]; simpl; eauto
         |destruct Hv as [e [-> He]]; simpl; eauto]). }
    specialize (H Hall).
    destruct (forallb _ (x :: d)).
    + destruct H as [out ->]. simpl; eauto.
    + destruct H as [e [-> He]]. simpl; eauto.
Qed.

Lemma forallb_map_eq {A B} (p : B -> bool) (q : A -> bool) (f : A -> B) (l : list A) :
  Forall (fun x => p (f x) = q x) l -> forallb p (map f l) = forallb q l.
Proof. induction 1 as [|x l Hx Hl IH]; simpl; [reflexivity | now rewrite Hx, IH]. Qed.

Lemma keys_encodable_normalize v : keys_encodable (normalize v) = keys_encodable v.
Proof.
  induction v as [ | | | | | | l IH | l IH | d IH] using pyval_induction;
    try reflexivity; simpl.
  - now apply forallb_map_eq.
  - now apply forallb_map_eq.
  - apply forallb_map_eq. eapply Forall_impl; [|exact IH].
    intros [k x] Hx. simpl in *. now rewrite Hx.
Qed.

(** X11. [pretty_result] prints JSON exactly when every dict key of the
    result, at any depth, is a str, an int, a bool or [None]: then it is
    the JSON text of the normal form; otherwise it is [str(res)]. *)
Theorem pretty_result_json_or_str (res : pyval) :
  well_formed res = true ->
  (keys_encodable res = true ->
   exists text, json_dumps (normalize res) = Ok text /\ pretty_result res = text)
  /\ (keys_encodable res = false -> pretty_result res = val_str res).
Proof.
  intros Hw. rewrite pretty_result_dumps, (decode_is_normalize res Hw).
  pose proof (iterencode_cases (normalize res) 0) as H.
  rewrite keys_encodable_normalize in H. unfold json_dumps.
  split; intros Hk; rewrite Hk in H.
  - destruct H as [text ->]. now exists text.
  - destruct H as [e [-> _]]. reflexivity.
Qed.

Lemma pretty_result_json_or_str_witness :
  (exists text,
      json_dumps (normalize (PDict [(KInt 1, PTuple [PHexBytes deadbeef])])) = Ok text
      /\ pretty_result (PDict [(KInt 1, PTuple [PHexBytes deadbeef])]) = text)
  /\ pretty_result (PList [PDict [(KBytes deadbeef, PInt 1)]])
     = val_str (PList [PDict [(KBytes deadbeef, PInt 1)]]).
Proof.
  split.
  - apply (proj1 (pretty_result_json_or_str
                    (PDict [(KInt 1, PTuple [PHexBytes deadbeef])]) eq_refl)).
    reflexivity.
  - apply (proj2 (pretty_result_json_or_str
                    (PList [PDict [(KBytes deadbeef, PInt 1)]]) eq_refl)).
    reflexivity.
Defined.

(* ------------------------------------------------------------------ *)
(** ** Fixed points of [decode_hexbytes] *)

Lemma decode_normal_form v : normal_form (decode_hexbytes v) = true.
Proof.
  induction v as [ | | | | | | l IH | l IH | d IH] using pyval_induction;
    try reflexivity.
  - simpl. rewrite forallb_forall. intros y [x [<- Hx]]%in_map_iff.
    rewrite Forall_forall in IH. now apply IH.
  - simpl. rewrite forallb_forall. intros y [x [<- Hx]]%in_map_iff.
    rewrite Forall_forall in IH. now apply IH.
  - rewrite decode_dict.
    destruct (dict_comp_invariant decode_hexbytes (fun x => normal_form x = true) d [])
      as [Hd Hq]; [reflexivity | constructor | exact IH |].
    cbn [normal_form]. rewrite Hd. simpl.
    rewrite forallb_forall. rewrite Forall_forall in Hq. exact Hq.
Qed.

Lemma normal_form_fixed v : normal_form v = true -> decode_hexbytes v = v.
Proof.
  induction v as [ | | | | | | l IH | l IH | d IH] using pyval_induction;
    try reflexivity; try discriminate; intros Hn.
  - simpl in *. f_equal. rewrite <- (map_id l) at 2. apply map_ext_in.
    intros x Hx. rewrite Forall_forall in IH. apply IH; [assumption|].
    rewrite forallb_forall in Hn. now apply Hn.
  - rewrite decode_dict. cbn [normal_form] in Hn. apply andb_prop in Hn as [Hd Hv].
    rewrite dict_comp_distinct by exact Hd. simpl. f_equal.
    rewrite <- (map_id d) at 2. apply map_ext_in. intros [k x] Hx. simpl. f_equal.
    rewrite Forall_forall in IH. apply (IH (k, x) Hx).
    rewrite forallb_forall in Hv. now apply (Hv (k, x)).
Qed.

(** X12. [decode_hexbytes] returns its argument unchanged exactly on the
    values that hold no [HexBytes] and no tuple among their items and
    dict values and whose dicts have distinct keys, and every value it
    returns is of that kind. *)
Theorem decode_fixed_points (v : pyval) :
  (decode_hexbytes v = v <-> normal_form v = true)
  /\ normal_form (decode_hexbytes v) = true.
Proof.
  split; [|apply decode_normal_form].
  split; [|apply normal_form_fixed].
  intros H. rewrite <- H. apply decode_normal_form.
Qed.

(* ------------------------------------------------------------------ *)
(** ** Event logs *)

Lemma setitem_encodable k v d :
  key_encodable k = true -> keys_encodable v = true ->
  encodable_items d = true -> encodable_items (dict_setitem k v d) = true.
Proof.
  unfold encodable_items. intros Hk Hv.
  induction d as [|[k' v'] d IH]; simpl.
  - now rewrite Hk, Hv.
  - intros [[Hk' Hv']%andb_prop Hd]%andb_prop.
    destruct (key_eqb k' k); simpl.
    + now rewrite Hk', Hv, Hd.
    + now rewrite Hk', Hv', (IH Hd).
Qed.

Lemma dict_comp_encodable f d : forall acc,
  Forall (fun kv : pykey * pyval =>
            keys_encodable (snd kv) = true -> keys_encodable (f (snd kv)) = true) d ->
  encodable_items acc = true -> encodable_items d = true ->
  encodable_items (dict_comp f d acc) = true.
Proof.
  unfold dict_comp.
  induction d as [|[k v] d IH]; intros acc Hf Ha Hd; simpl; [exact Ha|].
  inversion Hf as [|? ? Hv Hf']; subst.
  unfold encodable_items in Hd. simpl in Hd.
  apply andb_prop in Hd as [[Hk Hx]%andb_prop Hd].
  apply IH; [exact Hf' | | exact Hd].
  apply setitem_encodable; auto.
Qed.

(** A value [json.dumps] writes is still one after [decode_hexbytes]. *)
Lemma decode_keeps_encodable v :
  keys_encodable v = true -> keys_encodable (decode_hexbytes v) = true.
Proof.
  induction v as [ | | | | | | l IH | l IH | d IH] using pyval_induction;
    try reflexivity; intros Hk.
  - simpl in *. rewrite forallb_forall in *. intros y [x [<- Hx]]%in_map_iff.
    rewrite Forall_forall in IH. apply IH; auto.
  - simpl in *. rewrite forallb_forall in *. intros y [x [<- Hx]]%in_map_iff.
    rewrite Forall_forall in IH. apply IH; auto.
  - rewrite decode_dict.
    change (encodable_items (dict_comp decode_hexbytes d []) = true).
    apply dict_comp_encodable; [exact IH | reflexivity | exact Hk].
Qed.

(** X13. The dict [format_event_log] builds is already in normal form,
    so the [decode_hexbytes] that [pretty_result] applies to it changes
    nothing; and when the keys of the event arguments, at any depth, are
    ones [json.dumps] writes, [pretty_result] prints the dict as JSON and
    does not fall back to [str]. *)
Theorem event_log_is_printed (lg : Log.t) :
  normal_form (format_event_log lg) = true
  /\ decode_hexbytes (format_event_log lg) = format_event_log lg
  /\ (encodable_items (Log.args lg) = true ->
      exists text,
        json_dumps (format_event_log lg) = Ok text
        /\ pretty_result (format_event_log lg) = text).
Proof.
  assert (Hn : normal_form (format_event_log lg) = true).
  { unfold format_event_log. cbn [normal_form map fst snd forallb].
    rewrite decode_normal_form. reflexivity. }
  split; [exact Hn|]. split; [now apply normal_form_fixed|].
  intros Ha. rewrite pretty_result_dumps, (normal_form_fixed _ Hn).
  pose proof (iterencode_cases (format_event_log lg) 0) as H.
  assert (Hk : keys_encodable (format_event_log lg) = true).
  { unfold format_event_log. cbn [keys_encodable forallb key_encodable fst snd andb].
    rewrite decode_keeps_encodable; [reflexivity|].
    change (encodable_items (dict_of_items (Log.args lg)) = true).
    unfold dict_of_items. apply dict_comp_encodable; [|reflexivity|exact Ha].
    rewrite Forall_forall. auto. }
  rewrite Hk in H. destruct H as [text H]. unfold json_dumps. rewrite H.
  now exists text.
Qed.

Lemma event_log_is_printed_witness :
  exists text,
    json_dumps
      (format_event_log
         {| Log.event := "Transfer"; Log.address := "0xC0FFEE"; Log.blockNumber := 12;
            Log.transactionHash := deadbeef;
            Log.args := [(KStr "to", PStr "0xB0B"); (KStr "id", PHexBytes deadbeef);
                         (KStr "to", PStr "0xA11CE")] |}) = Ok text
    /\ pretty_result
         (format_event_log
            {| Log.event := "Transfer"; Log.address := "0xC0FFEE"; Log.blockNumber := 12;
               Log.transactionHash := deadbeef;
               Log.args := [(KStr "to", PStr "0xB0B"); (KStr "id", PHexBytes deadbeef);
                            (KStr "to", PStr "0xA11CE")] |}) = text.
Proof.
  apply (proj2 (proj2 (event_log_is_printed
           {| Log.event := "Transfer"; Log.address := "0xC0FFEE"; Log.blockNumber := 12;
              Log.transactionHash := deadbeef;
              Log.args := [(KStr "to", PStr "0xB0B"); (KStr "id", PHexBytes deadbeef);
                           (KStr "to", PStr "0xA11CE")] |}))).
  reflexivity.
Defined.

(* ------------------------------------------------------------------ *)
(** ** Explorer links *)

Lemma lower_char_idem c : lower_char (lower_char c) = lower_char c.
Proof. destruct c as [[] [] [] [] [] [] [] []]; reflexivity. Qed.

Lemma lower_idem s : lower (lower s) = lower s.
Proof. induction s; simpl; [reflexivity | now rewrite lower_char_idem, IHs]. Qed.

(** X14. The explorer links look at the network name only through its
    lowercase form, and the text they return always ends with the hash
    or the address they were given: a network that is neither mumbai
    nor polygon gets that text alone. *)
Theorem explorer_links_ignore_case (network x : string) :
  link_tx (lower network) x = link_tx network x
  /\ link_addr (lower network) x = link_addr network x
  /\ endswith (link_tx network x) x = true
  /\ endswith (link_addr network x) x = true.
Proof.
  unfold link_tx, link_addr. rewrite lower_idem.
  repeat split;
    destruct (String.eqb (lower network) "mumbai");
    try destruct (String.eqb (lower network) "polygon");
    try apply endswith_app; apply (endswith_app "" x).
Qed.

(** X15. [success_tx] always links to an explorer page: the network it
    hands to [link_tx] is one of the two [link_tx] knows, so the bare
    hash is never shown; it is the test-net page exactly when the chain
    name holds "mumbai" in any letter case. *)
Theorem success_tx_links_to_explorer (net_name : string) (r : receipt) :
  snd (success_tx net_name r)
  = "[在 Polygonscan 查看交易]("
      ++ (if contains (lower net_name) "mumbai"
          then "https://mumbai.polygonscan.com/tx/"
          else "https://polygonscan.com/tx/")
      ++ hexbytes_hex (transactionHash r) ++ ")".
Proof.
  unfold success_tx. cbn [snd].
  destruct (contains (lower net_name) "mumbai"); reflexivity.
Qed.

(* ------------------------------------------------------------------ *)
(** ** The provider *)

(** X16. A private key without the "0x" prefix gives the provider of the
    same key with the prefix, whatever the library answers; and when the
    node does not answer, the result is the connection error for every
    key, the key not being looked at. *)
Theorem key_prefix_is_optional (lib : web3_lib) (rpc_url private_key : string) :
  startswith private_key "0x" = false ->
  Web3Provider lib rpc_url private_key = Web3Provider lib rpc_url ("0x" ++ private_key)
  /\ (is_connected (Web3 lib rpc_url) = false ->
      forall other,
        Web3Provider lib rpc_url other = Web3Provider lib rpc_url private_key).
Proof.
  intros Hp. unfold Web3Provider. split.
  - rewrite Hp. reflexivity.
  - intros ->. reflexivity.
Qed.

Lemma key_prefix_is_optional_witness :
  Web3Provider demo_lib "https://rpc-mumbai.maticvigil.com" "ab12"
  = Web3Provider demo_lib "https://rpc-mumbai.maticvigil.com" ("0x" ++ "ab12").
Proof.
  apply (proj1 (key_prefix_is_optional demo_lib "https://rpc-mumbai.maticvigil.com"
                  "ab12" eq_refl)).
Defined.

(* ------------------------------------------------------------------ *)
(** ** The ABI cache *)

Lemma lookup_store {V} k (v : V) files : lookup k (store k v files) = Some v.
Proof.
  induction files as [|[k' v'] files IH]; simpl.
  - now rewrite String.eqb_refl.
  - destruct (String.eqb k' k) eqn:Hk; simpl; now rewrite Hk.
Qed.

Lemma lookup_store_other {V} k k' (v : V) files :
  k' <> k -> lookup k' (store k v files) = lookup k' files.
Proof.
  intros Hne. induction files as [|[k2 v2] files IH]; simpl.
  - destruct (String.eqb k k') eqn:Hk; [|reflexivity].
    apply String.eqb_eq in Hk. now subst.
  - destruct (String.eqb k2 k) eqn:Hk; simpl.
    + apply String.eqb_eq in Hk. subst k2.
      destruct (String.eqb k k') eqn:Hk'; [|reflexivity].
      apply String.eqb_eq in Hk'. now subst.
    + now rewrite IH.
Qed.

(** X17. A compilation that succeeds fills the cache: [load_cached] of
    the same name then gives the ABI that [compile] returned and the
    bytecode text, the cache entries of every other name and the
    deployment log are as before. [compile] returns the bytecode inside
    a dict under "bytecode" and [load_cached] returns the text itself,
    so the pair [main] unpacks has a dict as its second component on the
    run that compiles and a str on the runs after it. *)
Theorem compile_fills_cache (tc : toolchain) (contract_name : string)
  (src : source_file) (d d' : disk) (a b : json) :
  compile tc contract_name src d = (Ok (a, b), d') ->
  exists code,
    b = JObj [("bytecode", JStr code)]
    /\ load_cached contract_name d' = Some (a, code)
    /\ (forall other, other <> contract_name ->
                      load_cached other d' = load_cached other d)
    /\ log d' = log d
    /\ (load_cached contract_name d = None ->
        cached_or_compiled tc contract_name src d
        = (Ok (a, JObj [("bytecode", JStr code)]), d')
        /\ cached_or_compiled tc contract_name src d' = (Ok (a, JStr code), d')).
Proof.
  intros H. pose proof H as H0. unfold compile in H0.
  destruct (read_text tc (path src)) as [content|e]; [|discriminate].
  destruct (compile_standard tc (file_name src) content) as [contracts|e]; [|discriminate].
  destruct (lookup contract_name contracts) as [c|]; [|discriminate].
  destruct (ABI_CACHE_DIR d) as [files|] eqn:Hc; [|discriminate].
  injection H0 as <- <- <-. exists (bytecode_object c).
  assert (Hl : load_cached contract_name
                 {| ABI_CACHE_DIR :=
                      Some {| abi_files := store contract_name (abi c) (abi_files files);
                              bin_files := store contract_name (bytecode_object c)
                                             (bin_files files) |};
                    log := log d |} = Some (abi c, bytecode_object c)).
  { unfold load_cached. cbn [ABI_CACHE_DIR abi_files bin_files].
    now rewrite !lookup_store. }
  split; [reflexivity|]. split; [exact Hl|]. split; [|split; [reflexivity|]].
  - intros other Hne. unfold load_cached. cbn [ABI_CACHE_DIR abi_files bin_files].
    rewrite Hc, !lookup_store_other by exact Hne. reflexivity.
  - intros Hnone. unfold cached_or_compiled. rewrite Hnone, Hl. split; [|reflexivity].
    exact H.
Qed.

Lemma compile_fills_cache_witness :
  exists code,
    JObj [("bytecode", JStr "6080")] = JObj [("bytecode", JStr code)]
    /\ load_cached "SimpleStorage"
         {| ABI_CACHE_DIR :=
              Some {| abi_files := [("SimpleStorage", JArr [])];
                      bin_files := [("SimpleStorage", "6080")] |};
            log := log (ensure_dirs fresh_disk) |} = Some (JArr [], code)
    /\ (forall other, other <> "SimpleStorage" ->
          load_cached other
            {| ABI_CACHE_DIR :=
                 Some {| abi_files := [("SimpleStorage", JArr [])];
                         bin_files := [("SimpleStorage", "6080")] |};
               log := log (ensure_dirs fresh_disk) |}
          = load_cached other (ensure_dirs fresh_disk))
    /\ log {| ABI_CACHE_DIR :=
                Some {| abi_files := [("SimpleStorage", JArr [])];
                        bin_files := [("SimpleStorage", "6080")] |};
              log := log (ensure_dirs fresh_disk) |} = log (ensure_dirs fresh_disk)
    /\ (load_cached "SimpleStorage" (ensure_dirs fresh_disk) = None ->
        cached_or_compiled demo_toolchain "SimpleStorage" storage_source
          (ensure_dirs fresh_disk)
        = (Ok (JArr [], JObj [("bytecode", JStr code)]),
           {| ABI_CACHE_DIR :=
                Some {| abi_files := [("SimpleStorage", JArr [])];
                        bin_files := [("SimpleStorage", "6080")] |};
              log := log (ensure_dirs fresh_disk) |})
        /\ cached_or_compiled demo_toolchain "SimpleStorage" storage_source
             {| ABI_CACHE_DIR :=
                  Some {| abi_files := [("SimpleStorage", JArr [])];
                          bin_files := [("SimpleStorage", "6080")] |};
                log := log (ensure_dirs fresh_disk) |}
           = (Ok (JArr [], JStr code),
              {| ABI_CACHE_DIR :=
                   Some {| abi_files := [("SimpleStorage", JArr [])];
                           bin_files := [("SimpleStorage", "6080")] |};
                 log := log (ensure_dirs fresh_disk) |})).
Proof.
  apply (compile_fills_cache demo_toolchain "SimpleStorage" storage_source
           (ensure_dirs fresh_disk)).
  reflexivity.
Defined.

(** X18. A compilation that fails writes nothing. Once [ensure_dirs]
    has run, what [compile] raises is the error of reading the source,
    the error of the compiler, or the [ValueError] that names the
    contract missing from the compiler's output; without the cache
    directory a contract that compiled is lost to the error of the first
    write. *)
Theorem failed_compile_writes_nothing (tc : toolchain) (contract_name : string)
  (src : source_file) (d d' : disk) (e : exn) :
  compile tc contract_name src d = (Raise e, d') ->
  d' = d
  /\ (ABI_CACHE_DIR d <> None ->
      read_text tc (path src) = Raise e
      \/ (exists content,
            read_text tc (path src) = Ok content
            /\ (compile_standard tc (file_name src) content = Raise e
                \/ exists contracts,
                    compile_standard tc (file_name src) content = Ok contracts
                    /\ lookup contract_name contracts = None
                    /\ e = Exc ValueError
                             ("未在 " ++ file_name src ++ " 中找到合约 "
                                ++ contract_name)))).
Proof.
  unfold compile.
  destruct (read_text tc (path src)) as [content|e1] eqn:Hr.
  - destruct (compile_standard tc (file_name src) content) as [contracts|e2] eqn:Hs.
    + destruct (lookup contract_name contracts) as [c|] eqn:Hl.
      * destruct (ABI_CACHE_DIR d) as [files|]; [discriminate|].
        intros [= <- <-]. split; [reflexivity|]. intros Hc. now contradiction Hc.
      * intros [= <- <-]. split; [reflexivity|]. intros _. right.
        exists content. split; [reflexivity|]. right. exists contracts.
        repeat split; assumption.
    + intros [= <- <-]. split; [reflexivity|]. intros _. right.
      exists content. split; [reflexivity|]. now left.
  - intros [= <- <-]. split; [reflexivity|]. intros _. now left.
Qed.

Lemma failed_compile_writes_nothing_witness :
  ensure_dirs fresh_disk = ensure_dirs fresh_disk
  /\ (ABI_CACHE_DIR (ensure_dirs fresh_disk) <> None ->
      read_text demo_toolchain (path storage_source)
      = Raise (Exc ValueError ("未在 " ++ "SimpleStorage.sol" ++ " 中找到合约 " ++ "DemoERC20"))
      \/ (exists content,
            read_text demo_toolchain (path storage_source) = Ok content
            /\ (compile_standard demo_toolchain (file_name storage_source) content
                = Raise (Exc ValueError
                           ("未在 " ++ "SimpleStorage.sol" ++ " 中找到合约 " ++ "DemoERC20"))
                \/ exists contracts,
                    compile_standard demo_toolchain (file_name storage_source) content
                    = Ok contracts
                    /\ lookup "DemoERC20" contracts = None
                    /\ Exc ValueError
                         ("未在 " ++ "SimpleStorage.sol" ++ " 中找到合约 " ++ "DemoERC20")
                       = Exc ValueError
                           ("未在 " ++ file_name storage_source ++ " 中找到合约 "
                              ++ "DemoERC20")))).
Proof.
  apply (failed_compile_writes_nothing demo_toolchain "DemoERC20" storage_source
           (ensure_dirs fresh_disk) (ensure_dirs fresh_disk)).
  reflexivity.
Defined.

(* ------------------------------------------------------------------ *)
(** ** [ensure_dirs] *)

(** X19. [ensure_dirs] is idempotent and changes nothing that is read
    afterwards: the cache answers as before for every name, the log
    holds the same records, and [load_records] returns the same list for
    every filter. After it the cache directory and the log file exist,
    so [load_records] reads a file. *)
Theorem ensure_dirs_keeps_content (d : disk) :
  ensure_dirs (ensure_dirs d) = ensure_dirs d
  /\ (forall contract_name,
        load_cached contract_name (ensure_dirs d) = load_cached contract_name d)
  /\ stored (log (ensure_dirs d)) = stored (log d)
  /\ (forall f, fst (load_records f (log (ensure_dirs d)))
                = fst (load_records f (log d)))
  /\ ABI_CACHE_DIR (ensure_dirs d) <> None
  /\ DEPLOYMENTS_FILE (log (ensure_dirs d)) <> None.
Proof.
  destruct d as [[c|] [[l|] t]]; unfold ensure_dirs; cbn;
    repeat split; try reflexivity; try discriminate;
    intros [[|? ?]|]; reflexivity.
Qed.

(* ------------------------------------------------------------------ *)
(** ** Arrays in their two spellings *)

Lemma app_assoc_str (a b c : string) : ((a ++ b) ++ c = a ++ (b ++ c))%string.
Proof. induction a; simpl; [reflexivity | now f_equal]. Qed.

Lemma scanstring_plain begin s rest :
  plain s = true -> scanstring begin (s ++ String "034" rest) = Scanned s rest.
Proof.
  induction s as [|c s IH]; intros Hp.
  - reflexivity.
  - cbn [plain] in Hp. apply andb_prop in Hp as [Hc Hs].
    unfold plain_char in Hc.
    apply andb_prop in Hc as [[Hr Hq]%andb_prop Hb].
    apply negb_true_iff in Hq, Hb.
    assert (Hctl : in_range 0 31 c = false).
    { clear - Hr. destruct c as [[] [] [] [] [] [] [] []]; try reflexivity; discriminate. }
    change ((String c s ++ String "034" rest)%string)
      with (String c (s ++ String "034" rest)).
    cbn [scanstring]. rewrite Hq, Hb, Hctl, (IH Hs). reflexivity.
Qed.

Lemma scan_once_string fuel s rest :
  plain s = true ->
  scan_once (S fuel) (String "034" (s ++ String "034" rest)) = Scanned (JStr s) rest.
Proof.
  intros Hp. cbn [scan_once]. rewrite Ascii.eqb_refl.
  now rewrite (scanstring_plain _ s rest Hp).
Qed.
Lemma quoted_cons s rest :
  ((quote ++ s ++ quote) ++ rest)%string = String "034" (s ++ String "034" rest).
Proof. unfold quote. simpl. f_equal. now rewrite app_assoc_str. Qed.

Lemma array_items_last fuel acc s v rest :
  scan_once fuel s = Scanned v (String "]" rest) ->
  array_items (S fuel) acc s = Scanned (JArr (rev (v :: acc))) rest.
Proof. intros H. cbn [array_items]. rewrite H. reflexivity. Qed.

Lemma array_items_next fuel acc s v next :
  scan_once fuel s = Scanned v (String "," (String " " (String "034" next))) ->
  array_items (S fuel) acc s = array_items fuel (v :: acc) (String "034" next).
Proof. intros H. cbn [array_items]. rewrite H. reflexivity. Qed.

Lemma array_items_strings ss : forall acc fuel rest,
  ss <> [] -> forallb plain ss = true -> (List.length ss < fuel)%nat ->
  array_items fuel acc
    (join ", " (map (fun s => quote ++ s ++ quote)%string ss) ++ String "]" rest)
  = Scanned (JArr (rev acc ++ map JStr ss)) rest.
Proof.
  induction ss as [|x ss IH]; intros acc fuel rest Hne Hp Hf; [congruence|].
  cbn [forallb] in Hp. apply andb_prop in Hp as [Hx Hs].
  destruct fuel as [|[|fuel]]; [simpl in Hf; lia | simpl in Hf; lia |].
  destruct ss as [|y ss].
  - cbn [map join]. rewrite quoted_cons.
    apply array_items_last. apply (scan_once_string fuel x _ Hx).
  - change (join ", " (map (fun s => quote ++ s ++ quote)%string (x :: y :: ss)))
      with ((quote ++ x ++ quote) ++ ", "
            ++ join ", " (map (fun s => quote ++ s ++ quote)%string (y :: ss)))%string.
    rewrite app_assoc_str, quoted_cons.
    assert (Hj : exists r, join ", " (map (fun s => quote ++ s ++ quote)%string (y :: ss))
                           = String "034" r).
    { destruct ss; cbn [map join]; unfold quote; simpl; eauto. }
    destruct Hj as [r Hr].
    rewrite (array_items_next (S fuel) acc _ (JStr x) (r ++ String "]" rest)).
    + change (String "034" (r ++ String "]" rest))
        with (String "034" r ++ String "]" rest)%string.
      rewrite <- Hr.
      rewrite IH; [| discriminate | exact Hs | simpl in Hf |- *; lia].
      cbn [rev map]. now rewrite <- List.app_assoc.
    + rewrite app_assoc_str, Hr. apply (scan_once_string fuel x _ Hx).
Qed.

Lemma join_quoted_length ss :
  (List.length ss <= String.length (join ", " (map (fun s => quote ++ s ++ quote)%string ss)))%nat.
Proof.
  induction ss as [|x ss IH]; [simpl; lia|].
  destruct ss as [|y ss].
  - cbn [map join]. rewrite !length_app. simpl. apply le_n_S, Nat.le_0_l.
  - change (join ", " (map (fun s => quote ++ s ++ quote)%string (x :: y :: ss)))
      with ((quote ++ x ++ quote) ++ ", "
            ++ join ", " (map (fun s => quote ++ s ++ quote)%string (y :: ss)))%string.
    set (j := join ", " (map (fun s => quote ++ s ++ quote)%string (y :: ss))) in *.
    clearbody j. rewrite !length_app. simpl in *. lia.
Qed.

(** A JSON array of plain strs is read back as those strs. *)
Lemma json_loads_array_text ss :
  forallb plain ss = true -> json_loads (json_array_text ss) = Ok (JArr (map JStr ss)).
Proof.
  intros Hp. destruct ss as [|x ss]; [reflexivity|].
  unfold json_loads, json_array_text.
  set (body := join ", " (map (fun s => quote ++ s ++ quote)%string (x :: ss))).
  assert (Hb : exists r, body = String "034" r).
  { unfold body. destruct ss; cbn [map join]; unfold quote; simpl; eauto. }
  destruct Hb as [r Hr].
  change ("[" ++ body ++ "]")%string with (String "[" (body ++ "]")).
  replace (startswith (String "[" (body ++ "]")) (chr 65279)) with false by reflexivity.
  unfold loads_fuel.
  change (skip_ws (String "[" (body ++ "]"))) with (String "[" (body ++ "]")).
  set (n := String.length (String "[" (body ++ "]"))).
  replace (2 * n + 2)%nat with (S (S (2 * n))) by lia.
  cbn [scan_once]. change (Ascii.eqb "[" "034") with false.
  change (Ascii.eqb "[" "{") with false. change (Ascii.eqb "[" "[") with true.
  cbn iota. rewrite Hr.
  change (skip_ws (String "034" r ++ "]")) with (String "034" r ++ "]")%string.
  change (head_is "]" (String "034" r ++ "]")) with false. cbn iota.
  rewrite <- Hr. unfold body.
  rewrite (array_items_strings (x :: ss) [] (S (2 * n)) "");
    [reflexivity | discriminate | exact Hp |].
  pose proof (join_quoted_length (x :: ss)) as Hl. fold body in Hl.
  unfold n. cbn [String.length]. rewrite length_app. lia.
Qed.

Lemma split_app_sep sep a b :
  contains_char sep a = false -> split sep (a ++ String sep b) = a :: split sep b.
Proof.
  induction a as [|c a IH]; simpl.
  - intros _. now rewrite Ascii.eqb_refl.
  - rewrite (Ascii.eqb_sym sep c).
    destruct (Ascii.eqb c sep); simpl; [discriminate|].
    intros H. now rewrite (IH H).
Qed.

Lemma array_token_parts t :
  array_token t = true ->
  plain t = true /\ t <> "" /\ strip t = t /\ contains_char "," t = false.
Proof.
  unfold array_token.
  intros [[[Hp Hn]%andb_prop Hs]%andb_prop Hc]%andb_prop.
  apply negb_true_iff in Hn, Hc. apply String.eqb_neq in Hn. apply String.eqb_eq in Hs.
  auto.
Qed.

(** The pieces between the commas of [", ".join(ss)]. *)
Lemma split_join ss :
  ss <> [] -> forallb array_token ss = true ->
  split "," (join ", " ss)
  = (hd "" ss :: map (fun t => String " " t) (tl ss))%list.
Proof.
  induction ss as [|x ss IH]; intros Hne Hp; [congruence|].
  cbn [forallb] in Hp. apply andb_prop in Hp as [Hx Hs].
  apply array_token_parts in Hx as (_ & _ & _ & Hc).
  destruct ss as [|y ss].
  - cbn [join hd tl map]. now apply split_no_sep.
  - change (join ", " (x :: y :: ss))
      with (x ++ String "," (String " " (join ", " (y :: ss))))%string.
    rewrite (split_app_sep "," x _ Hc).
    cbn [hd tl map]. f_equal.
    change (split "," (String " " (join ", " (y :: ss))))
      with (match split "," (join ", " (y :: ss)) with
            | [] => [String " " ""]
            | piece :: rest => String " " piece :: rest
            end).
    rewrite IH; [reflexivity | discriminate | exact Hs].
Qed.

Lemma comma_tokens_join ss :
  forallb array_token ss = true -> comma_tokens (join ", " ss) = ss.
Proof.
  intros Hp. destruct ss as [|x ss]; [reflexivity|].
  unfold comma_tokens. rewrite split_join by (discriminate || exact Hp).
  cbn [hd tl]. cbn [forallb] in Hp. apply andb_prop in Hp as [Hx Hs].
  apply array_token_parts in Hx as (_ & Hn & Hst & _).
  cbn [filter]. rewrite Hst.
  destruct (String.eqb_spec x ""); [contradiction|]. cbn [negb map]. rewrite Hst.
  f_equal. clear - Hs.
  induction ss as [|y ss IH]; [reflexivity|].
  cbn [forallb] in Hs. apply andb_prop in Hs as [Hy Hs].
  apply array_token_parts in Hy as (_ & Hn & Hst & _).
  cbn [map filter].
  change (strip (String " " y)) with (strip y). rewrite Hst.
  destruct (String.eqb_spec y ""); [contradiction|]. cbn [negb map].
  change (strip (String " " y)) with (strip y). rewrite Hst.
  f_equal. now apply IH.
Qed.

Lemma startswith_strip s p c :
  strip s = s -> startswith (strip (s ++ p)) (String c "") = startswith s (String c "")
                 \/ s = "".
Proof.
  destruct s as [|d s]; [now right|]. intros Hs. left.
  assert (Hd : is_space d = false).
  { pose proof (lstrip_head (String d s)) as Hl. unfold strip in Hs.
    destruct (lstrip (String d s)) as [|e r] eqn:He.
    - simpl in He. destruct (is_space d); [|discriminate].
      simpl in Hs. discriminate.
    - simpl in He. destruct (is_space d) eqn:Hsp; [|reflexivity].
      exfalso.
      assert (Hlen : (String.length (rstrip (String e r)) <= String.length s)%nat).
      { rewrite <- He.
        assert (Hr : forall u, (String.length (rstrip u) <= String.length u)%nat).
        { induction u as [|a u IHu]; simpl; [lia|].
          destruct (rstrip u); [destruct (is_space a)|]; simpl in *; lia. }
        assert (Hl' : forall u, (String.length (lstrip u) <= String.length u)%nat).
        { induction u as [|a u IHu]; simpl; [lia|].
          destruct (is_space a); simpl; lia. }
        specialize (Hr (lstrip s)). specialize (Hl' s). lia. }
      rewrite Hs in Hlen. simpl in Hlen. lia. }
  unfold strip.
  change (lstrip (String d s ++ p)) with (lstrip (String d (s ++ p))).
  cbn [lstrip]. rewrite Hd.
  destruct (rstrip_head d (s ++ p) Hd) as [r ->]. reflexivity.
Qed.

Lemma join_head sep x ss : exists p, join sep (x :: ss) = (x ++ p)%string.
Proof.
  destruct ss as [|y ss]; cbn [join]; [|eauto].
  exists "". induction x; simpl; [reflexivity | now f_equal].
Qed.

Lemma forallb_token_plain ss : forallb array_token ss = true -> forallb plain ss = true.
Proof.
  rewrite !forallb_forall. intros H x Hx.
  now destruct (array_token_parts x (H x Hx)).
Qed.

Lemma parse_array_json ss :
  forallb array_token ss = true -> parse_array (json_array_text ss) = Ok (map JStr ss).
Proof.
  intros Hp. unfold parse_array.
  assert (Hb : startswith (strip (json_array_text ss)) "[" = true).
  { unfold json_array_text, strip.
    change ("[" ++ join ", " (map (fun s => quote ++ s ++ quote) ss) ++ "]")%string
      with (String "[" (join ", " (map (fun s => quote ++ s ++ quote) ss) ++ "]"))%string.
    cbn [lstrip]. change (is_space "[") with false. cbn iota.
    destruct (rstrip_head "[" (join ", " (map (fun s => quote ++ s ++ quote) ss) ++ "]")%string
                eq_refl) as [r ->].
    reflexivity. }
  rewrite Hb, (json_loads_array_text ss (forallb_token_plain ss Hp)). reflexivity.
Qed.

Lemma parse_array_commas ss :
  forallb array_token ss = true -> startswith (hd "" ss) "[" = false ->
  parse_array (join ", " ss) = Ok (map JStr ss).
Proof.
  intros Hp Hh. unfold parse_array.
  assert (Hb : startswith (strip (join ", " ss)) "[" = false).
  { destruct ss as [|x ss]; [reflexivity|].
    destruct (join_head ", " x ss) as [p ->].
    cbn [forallb] in Hp. apply andb_prop in Hp as [Hx _].
    apply array_token_parts in Hx as (_ & Hn & Hst & _).
    destruct (startswith_strip x p "[" Hst) as [-> | ->]; [exact Hh | contradiction]. }
  now rewrite Hb, (comma_tokens_join ss Hp).
Qed.

(** X20. An array whose base type is not an integer type reads the same
    from the two spellings: for items that are printable ASCII without
    quote, backslash or comma, not empty and without a blank at either
    end, the first not opening with a bracket, the JSON array of the
    items and the items joined by ", " coerce to the same result; for
    [string[]] that result is the list of the items. *)
Theorem array_spellings_agree (ext : extern) (nm base : string) (ss : list string) :
  is_int_type base = false ->
  forallb array_token ss = true ->
  startswith (hd "" ss) "[" = false ->
  parse_array (json_array_text ss) = Ok (map JStr ss)
  /\ parse_array (join ", " ss) = Ok (map JStr ss)
  /\ convert_args ext [{| name := nm; type := base ++ "[]" |}] [json_array_text ss]
     = convert_args ext [{| name := nm; type := base ++ "[]" |}] [join ", " ss]
  /\ (base = "string" ->
      convert_args ext [{| name := nm; type := base ++ "[]" |}] [join ", " ss]
      = Ok [PList (map PStr ss)]).
Proof.
  intros Hb Hp Hh.
  pose proof (parse_array_json ss Hp) as Hj.
  pose proof (parse_array_commas ss Hp Hh) as Hc.
  split; [exact Hj|]. split; [exact Hc|]. split.
  - rewrite !convert_args_one, !(convert_arg_array ext nm base _ Hb), Hj, Hc.
    reflexivity.
  - intros ->. rewrite convert_args_one, (convert_arg_array ext nm "string" _ Hb), Hc.
    cbn [bind]. change (String.eqb "string" "address") with false.
    change (String.eqb "string" "string") with true. cbn iota.
    rewrite map_map. reflexivity.
Qed.

Lemma array_spellings_agree_witness :
  parse_array (json_array_text ["alice"; "bob smith"]) = Ok (map JStr ["alice"; "bob smith"])
  /\ parse_array (join ", " ["alice"; "bob smith"]) = Ok (map JStr ["alice"; "bob smith"])
  /\ convert_args plain_extern [{| name := "names"; type := "string" ++ "[]" |}]
       [json_array_text ["alice"; "bob smith"]]
     = convert_args plain_extern [{| name := "names"; type := "string" ++ "[]" |}]
         [join ", " ["alice"; "bob smith"]]
  /\ ("string" = "string" ->
      convert_args plain_extern [{| name := "names"; type := "string" ++ "[]" |}]
        [join ", " ["alice"; "bob smith"]]
      = Ok [PList (map PStr ["alice"; "bob smith"])]).
Proof.
  apply (array_spellings_agree plain_extern "names" "string" ["alice"; "bob smith"]);
    reflexivity.
Defined.
